(** * Effect: timed status effects (src/effect.js)

    A shallow embedding of the [Effect] class and of its [validate] helper,
    with the part of the JavaScript semantics the class relies on: truthiness,
    numeric conversion, [parseInt], property reads, calls, [for-in], thrown
    errors and unresolvable identifiers.

    The collaborators of the class are external: the behaviour registry
    ([Effects.get]), the target entity and every callback found in the
    options or in the behaviour descriptor.  The registry is a parameter of
    the constructor; an external function is a value carrying its name and
    what a call to it does (return a value or throw), and every call the class
    makes to one is recorded, in order, in a trace. *)

From Stdlib Require Import ZArith List String Ascii Bool Lia DecimalString.
Import ListNotations.
Local Open Scope string_scope.
Local Open Scope Z_scope.

(** ** Numbers

    The timing fields are millisecond counts.  The model has the two
    infinities, NaN and the integer-valued numbers, as [Z]: the integers a
    double represents exactly ([-0] is identified with [0], both falsy and
    equal under every operation used here).  Fractional numbers are outside
    the model. *)

Inductive number : Type :=
| NaN
| Infinity
| NegInfinity
| Num (z : Z).

(** [a < b] on numbers: false as soon as one side is NaN. *)
Definition num_lt (a b : number) : bool :=
  match a, b with
  | NaN, _ => false
  | _, NaN => false
  | Num x, Num y => x <? y
  | Num _, Infinity => true
  | Num _, NegInfinity => false
  | NegInfinity, NegInfinity => false
  | NegInfinity, _ => true
  | Infinity, _ => false
  end.

(** [a - b] on numbers. *)
Definition num_sub (a b : number) : number :=
  match a, b with
  | NaN, _ => NaN
  | _, NaN => NaN
  | Num x, Num y => Num (x - y)
  | Num _, Infinity => NegInfinity
  | Num _, NegInfinity => Infinity
  | Infinity, Infinity => NaN
  | Infinity, _ => Infinity
  | NegInfinity, NegInfinity => NaN
  | NegInfinity, _ => NegInfinity
  end.

(** ** Errors and results *)

Inductive JsError : Type :=
| ReferenceError (message : string)
| TypeError (message : string)
| Error (message : string).

Inductive outcome (A : Type) : Type :=
| Return (a : A)
| Throw (e : JsError).
Arguments Return {A} a.
Arguments Throw {A} e.

(** ** Values

    A plain object is the list of its enumerable own properties in the order
    [for-in] and [Object.keys] enumerate them (keys are distinct; a lookup
    takes the first match).  A function is external code: its name identifies
    it in the trace and [body] is what calling it does.  Strings are over the
    code units 0..255. *)

#[local] Set Warnings "-register-all".
Inductive value : Type :=
| VUndefined
| VNull
| VBool (b : bool)
| VNum (n : number)
| VStr (s : string)
| VObj (props : list (string * value))
| VFun (name : string) (body : outcome value).

(** Truthiness, as [if (v)], [!v] and [v || w] test it. *)
Definition ToBoolean (v : value) : bool :=
  match v with
  | VUndefined | VNull => false
  | VBool b => b
  | VNum NaN => false
  | VNum (Num z) => negb (z =? 0)
  | VNum _ => true
  | VStr s => negb (s =? "")%string
  | VObj _ | VFun _ _ => true
  end.

(** [a || b] on values. *)
Definition or_else (a b : value) : value := if ToBoolean a then a else b.

(** *** Reading numerals out of strings *)

Definition is_white_space (c : ascii) : bool :=
  let n := nat_of_ascii c in
  (((9 <=? n) && (n <=? 13)) || (n =? 32) || (n =? 160))%nat.

Fixpoint skip_white_space (s : string) : string :=
  match s with
  | String c r => if is_white_space c then skip_white_space r else s
  | EmptyString => s
  end.

Definition digit_value (c : ascii) : option Z :=
  let n := Z.of_nat (nat_of_ascii c) in
  if (48 <=? n) && (n <=? 57) then Some (n - 48) else None.

(** Reads the longest prefix of decimal digits: the value read so far
    ([None] while no digit was seen) and the rest of the string. *)
Fixpoint read_digits (s : string) (acc : option Z) : option Z * string :=
  match s with
  | String c r =>
      match digit_value c with
      | Some d => read_digits r (Some (10 * match acc with Some a => a | None => 0 end + d))
      | None => (acc, s)
      end
  | EmptyString => (acc, s)
  end.

(** An optional sign: whether it is a minus, and the rest. *)
Definition read_sign (s : string) : bool * string :=
  match s with
  | String "-"%char r => (true, r)
  | String "+"%char r => (false, r)
  | _ => (false, s)
  end.

(** [parseInt(s, 10)] on a string: leading white space, an optional sign,
    then as many decimal digits as there are; whatever follows is ignored,
    and no digit at all gives NaN. *)
Definition parseInt_string (s : string) : number :=
  let (neg, r) := read_sign (skip_white_space s) in
  match fst (read_digits r None) with
  | Some n => Num (if neg then - n else n)
  | None => NaN
  end.

(** [parseInt(v, 10)]: [v] is first converted to a string.  The string of
    an integer-valued number is its decimal numeral, which is read back
    whole; the strings of the other non-string values ("undefined", "null",
    "true", "false", "NaN", "Infinity", "-Infinity", "[object Object]", the
    source text of a function) have no leading digit. *)
Definition parseInt (v : value) : number :=
  match v with
  | VStr s => parseInt_string s
  | VNum (Num z) => Num z
  | _ => NaN
  end.

(** The numeric value of a string: white space trimmed, the empty string is
    0, a signed decimal integer or a signed "Infinity" is that number.
    Everything else is NaN here; strings that hold a fractional, exponent or
    radix-prefixed literal denote numbers outside the model. *)
Definition StringToNumber (s : string) : number :=
  let t := skip_white_space s in
  if (t =? "")%string then Num 0 else
  let (neg, r) := read_sign t in
  match read_digits r None with
  | (Some n, rest) =>
      if (skip_white_space rest =? "")%string
      then Num (if neg then - n else n) else NaN
  | (None, _) =>
      if prefix "Infinity" r
         && (skip_white_space (substring 8 (String.length r - 8) r) =? "")%string
      then (if neg then NegInfinity else Infinity) else NaN
  end.

(** Numeric conversion, as [isNaN], [-] and [<] apply it.  A plain object
    converts through "[object Object]" and a function through its source
    text: both NaN. *)
Definition ToNumber (v : value) : number :=
  match v with
  | VUndefined => NaN
  | VNull => Num 0
  | VBool b => Num (if b then 1 else 0)
  | VNum n => n
  | VStr s => StringToNumber s
  | VObj _ | VFun _ _ => NaN
  end.

Definition isNaN (v : value) : bool :=
  match ToNumber v with
  | NaN => true
  | _ => false
  end.

(** *** Properties *)

Fixpoint lookup (key : string) (props : list (string * value)) : value :=
  match props with
  | (k, v) :: rest => if (k =? key)%string then v else lookup key rest
  | [] => VUndefined
  end.

Definition index_key (i : nat) : string := NilZero.string_of_uint (Nat.to_uint i).

(** The enumerable own property names: the keys of an object, the indices of
    a string, none for the other primitives and for functions. *)
Definition own_keys (v : value) : list string :=
  match v with
  | VObj props => map fst props
  | VStr s => map index_key (seq 0 (String.length s))
  | _ => []
  end.

(** The character of [s] at the index [key] names, if [key] is the
    canonical numeral of an index. *)
Definition string_at (s : string) (key : string) : value :=
  match parseInt_string key with
  | Num i =>
      if (index_key (Z.to_nat i) =? key)%string
      then match String.get (Z.to_nat i) s with
           | Some c => VStr (String c EmptyString)
           | None => VUndefined
           end
      else VUndefined
  | _ => VUndefined
  end.

(** [o.key] and [o[key]].  Reading off undefined or null throws.  None of the
    names this class reads is defined on the prototypes of the primitives or
    of functions, so apart from a string's own indices and length such a
    read finds nothing. *)
Definition get_property (o : value) (key : string) : outcome value :=
  match o with
  | VUndefined =>
      Throw (TypeError ("Cannot read property '" ++ key ++ "' of undefined"))
  | VNull =>
      Throw (TypeError ("Cannot read property '" ++ key ++ "' of null"))
  | VObj props => Return (lookup key props)
  | VStr s =>
      Return (if (key =? "length")%string
              then VNum (Num (Z.of_nat (String.length s)))
              else string_at s key)
  | VBool _ | VNum _ | VFun _ _ => Return VUndefined
  end.

(** [Object.keys(v)]. *)
Definition Object_keys (v : value) : outcome (list string) :=
  match v with
  | VUndefined | VNull =>
      Throw (TypeError "Cannot convert undefined or null to object")
  | _ => Return (own_keys v)
  end.

(** ** The instance, the trace and the monad of method bodies *)

(** The seven symbol-keyed fields of an instance.  A field that was never
    assigned reads as undefined. *)
Record Effect : Type := mkEffect {
  _id : value;
  _options : value;
  _type : value;
  _target : value;
  _elapsed : value;
  _started : value;
  _effect : value
}.

(** The object [new] hands to the constructor. *)
Definition fresh_object : Effect :=
  mkEffect VUndefined VUndefined VUndefined VUndefined VUndefined VUndefined VUndefined.

(** An argument of a recorded call: a value, or the arrow function that
    [init] creates for the target's quit event. *)
Inductive arg : Type :=
| Val (v : value)
| QuitClosure.

(** What the class does to its collaborators. *)
Inductive event : Type :=
| Resolve (target type options : value)
| Call (f : string) (args : list arg).

(** A method body runs on [this]: it leaves the instance in some state (also
    when it throws), has recorded some calls, and returns or throws. *)
Definition M (A : Type) : Type := Effect -> Effect * list event * outcome A.

Definition ret {A} (a : A) : M A := fun this => (this, [], Return a).

Definition throw {A} (e : JsError) : M A := fun this => (this, [], Throw e).

(** The state, the trace and the result of a run. *)
Definition state_of {A} (r : Effect * list event * outcome A) : Effect := fst (fst r).
Definition trace_of {A} (r : Effect * list event * outcome A) : list event := snd (fst r).
Definition result_of {A} (r : Effect * list event * outcome A) : outcome A := snd r.

Definition bind {A B} (m : M A) (k : A -> M B) : M B :=
  fun this =>
    let r1 := m this in
    match result_of r1 with
    | Return a =>
        let r2 := k a (state_of r1) in
        (state_of r2, (trace_of r1 ++ trace_of r2)%list, result_of r2)
    | Throw e => (state_of r1, trace_of r1, Throw e)
    end.

Notation "x <- m ;; k" := (bind m (fun x => k))
  (at level 61, m at next level, right associativity).
Notation "m ;; k" := (bind m (fun _ => k))
  (at level 61, right associativity).

Definition lift {A} (r : outcome A) : M A := fun this => (this, [], r).

(** [this[field]]. *)
Definition read (field : Effect -> value) : M value :=
  fun this => (this, [], Return (field this)).

Definition write (update : Effect -> Effect) : M unit :=
  fun this => (update this, [], Return tt).

Definition set_id (v : value) (e : Effect) : Effect :=
  mkEffect v (_options e) (_type e) (_target e) (_elapsed e) (_started e) (_effect e).
Definition set_options (v : value) (e : Effect) : Effect :=
  mkEffect (_id e) v (_type e) (_target e) (_elapsed e) (_started e) (_effect e).
Definition set_type (v : value) (e : Effect) : Effect :=
  mkEffect (_id e) (_options e) v (_target e) (_elapsed e) (_started e) (_effect e).
Definition set_target (v : value) (e : Effect) : Effect :=
  mkEffect (_id e) (_options e) (_type e) v (_elapsed e) (_started e) (_effect e).
Definition set_elapsed (v : value) (e : Effect) : Effect :=
  mkEffect (_id e) (_options e) (_type e) (_target e) v (_started e) (_effect e).
Definition set_started (v : value) (e : Effect) : Effect :=
  mkEffect (_id e) (_options e) (_type e) (_target e) (_elapsed e) v (_effect e).
Definition set_effect (v : value) (e : Effect) : Effect :=
  mkEffect (_id e) (_options e) (_type e) (_target e) (_elapsed e) (_started e) v.

Definition get (o : value) (key : string) : M value := lift (get_property o key).

(** [f(args)], [callee] being the source text of [f]: calling what is not a
    function throws. *)
Definition call (callee : string) (f : value) (args : list arg) : M value :=
  match f with
  | VFun name body => fun this => (this, [Call name args], body)
  | _ => throw (TypeError (callee ++ " is not a function"))
  end.

(** [for (let key in o) body]: nothing to enumerate on undefined and null. *)
Fixpoint for_each (keys : list string) (body : string -> M unit) : M unit :=
  match keys with
  | key :: rest => body key ;; for_each rest body
  | [] => ret tt
  end.

Definition for_in (o : value) (body : string -> M unit) : M unit :=
  for_each (own_keys o) body.

(** The symbols the module declares, each with the field it keys. *)
Definition symbols : list (string * ((Effect -> value) * (value -> Effect -> Effect))) :=
  [ ("_id", (_id, set_id));
    ("_options", (_options, set_options));
    ("_type", (_type, set_type));
    ("_target", (_target, set_target));
    ("_elapsed", (_elapsed, set_elapsed));
    ("_started", (_started, set_started));
    ("_effect", (_effect, set_effect)) ].

(** Evaluating the name of a symbol: a name the module does not declare is
    a ReferenceError. *)
Definition symbol (x : string) : M ((Effect -> value) * (value -> Effect -> Effect)) :=
  match find (fun b => (fst b =? x)%string) symbols with
  | Some b => ret (snd b)
  | None => throw (ReferenceError (x ++ " is not defined"))
  end.

(** [this[x]] and [this[x] = v]. *)
Definition this_get (x : string) : M value :=
  s <- symbol x ;; read (fst s).

Definition this_set (x : string) (v : value) : M unit :=
  s <- symbol x ;; write (snd s v).

(** Reading any other identifier inside a method: [locals] are the
    parameters and locals in scope.  The remaining bindings of the module
    ([Effects], [Effect], [validate]) are embedded as the registry parameter
    and as definitions, and no method reads them as values; any other name
    is bound nowhere, a ReferenceError. *)
Definition identifier (locals : list (string * value)) (x : string) : M value :=
  match find (fun b => (fst b =? x)%string) locals with
  | Some b => ret (snd b)
  | None => throw (ReferenceError (x ++ " is not defined"))
  end.

Definition when (b : bool) (m : M unit) : M unit := if b then m else ret tt.

Definition num_or (a b : number) : number := if ToBoolean (VNum a) then a else b.

(** ** The errors the class throws *)

Definition MissingId : JsError :=
  ReferenceError "Effects must have an ID to prevent stacking.".
Definition MissingOptions : JsError :=
  ReferenceError "Effects must take an options object to pass to applicable functions when evaluating effects.".
Definition MissingType : JsError :=
  ReferenceError "Effects must have a generic effect type.".
Definition MissingTarget : JsError :=
  ReferenceError "Effects must have a target.".
Definition UnsupportedTargetKind : JsError :=
  TypeError "Effects can only target players or NPCs.".
Definition MissingEventHandler : JsError :=
  ReferenceError "An event was registered for an effect, but it had no handler.".
Definition MissingModifierCallback : JsError :=
  ReferenceError "An attribute modifier was registered but it had no callback.".

(** ** validate *)

Definition validate (id options type target : value) : M unit :=
  when (negb (ToBoolean id)) (throw MissingId) ;;
  empty <- (if negb (ToBoolean options) then ret true
            else keys <- lift (Object_keys options) ;;
                 ret (Nat.eqb (List.length keys) 0)) ;;
  when empty (throw MissingOptions) ;;
  when (negb (ToBoolean type)) (throw MissingType) ;;
  when (negb (ToBoolean target)) (throw MissingTarget) ;;
  addEffect <- get target "addEffect" ;;
  when (negb (ToBoolean addEffect)) (throw UnsupportedTargetKind).

(** ** The class *)

Section Construction.

(** [Effects.get], from ./effects: what it answers for a target, a type
    and the options. *)
Variable registry : value -> value -> value -> outcome value.

Definition Effects_get (target type options : value) : M value :=
  fun this => (this, [Resolve target type options], registry target type options).

Definition constructor (id options type target : value) : M unit :=
  validate id options type target ;;
  this_set "_id" id ;;
  this_set "_type" type ;;
  this_set "_target" target ;;
  this_set "_options" options ;;
  behavior <- Effects_get target type options ;;
  this_set "_effect" behavior ;;
  effect <- this_get "_effect" ;;
  activate <- get effect "activate" ;;
  call "this[_effect].activate" activate [Val options; Val target] ;;
  opts <- this_get "_options" ;;
  supplied <- get opts "activate" ;;
  when (ToBoolean supplied)
    (opts <- this_get "_options" ;;
     activate <- get opts "activate" ;;
     call "this[_options].activate" activate [Val target] ;;
     ret tt).

(** [new Effect({ id, options, type, target })]: the instance, unless the
    constructor throws. *)
Definition new_Effect (id options type target : value)
  : list event * outcome Effect :=
  let r := constructor id options type target fresh_object in
  match result_of r with
  | Return _ => (trace_of r, Return (state_of r))
  | Throw e => (trace_of r, Throw e)
  end.

End Construction.

Definition getId : M value := this_get "_id".
Definition getOptions : M value := this_get "_options".
Definition getType : M value := this_get "_type".
Definition getTarget : M value := this_get "_target".

Definition getName : M value :=
  generic <- this_get "_event" ;; get generic "name".
Definition getDescription : M value :=
  generic <- this_get "_event" ;; get generic "desc".
Definition getAura : M value :=
  generic <- this_get "_event" ;; get generic "aura".

Definition getDuration : M number :=
  options <- this_get "_options" ;;
  duration <- get options "duration" ;;
  ret (num_or (parseInt duration) Infinity).

(** [now] is what [Date.now()] answers. *)
Definition getElapsed (now : Z) : M value :=
  started <- this_get "_started" ;;
  if isNaN started then ret VNull
  else started <- this_get "_started" ;;
       ret (VNum (num_sub (Num now) (ToNumber started))).

Definition getModifiers : M value :=
  effect <- this_get "_effect" ;;
  modifiers <- get effect "modifiers" ;;
  ret (or_else modifiers (VObj [])).

Definition setElapsed (now : Z) : M unit :=
  elapsed <- getElapsed now ;;
  this_set "_elapsed" elapsed.

Definition isTemporary : M bool :=
  duration <- getDuration ;;
  ret (num_lt duration Infinity).

Definition isCurrent (now : Z) : M bool :=
  temporary <- isTemporary ;;
  if temporary
  then elapsed <- getElapsed now ;;
       duration <- getDuration ;;
       ret (num_lt (ToNumber elapsed) duration)
  else ret true.

Definition checkPredicate : M value :=
  options <- this_get "_options" ;;
  predicate <- get options "predicate" ;;
  if ToBoolean predicate then call "predicate" predicate [] else ret (VBool true).

Definition isValid (now : Z) : M value :=
  current <- isCurrent now ;;
  if current then checkPredicate else ret (VBool false).

(** The arrow function [init] hands to [target.on('quit', ...)]; [effect],
    [options] and [target] are the constants [init] read off the instance. *)
Definition quit_handler (now : Z) : M unit :=
  setElapsed now ;;
  effect <- this_get "_effect" ;;
  options <- this_get "_options" ;;
  target <- this_get "_target" ;;
  deactivate <- get effect "deactivate" ;;
  call "effect.deactivate" deactivate [Val options; Val target] ;;
  ret tt.

Definition init (now : Z) : M unit :=
  target <- this_get "_target" ;;
  options <- this_get "_options" ;;
  duration <- get options "duration" ;;
  when (ToBoolean duration)
    (started <- get options "started" ;;
     this_set "_started" (or_else started (VNum (Num now))) ;;
     elapsed <- get options "elapsed" ;;
     this_set "_elapsed" (or_else elapsed (VNum (Num 0)))) ;;
  effect <- this_get "_effect" ;;
  on <- get target "on" ;;
  call "target.on" on [Val (VStr "quit"); QuitClosure] ;;
  declared <- get effect "events" ;;
  let events := or_else declared (VObj []) in
  for_in events (fun event =>
    handler <- get events event ;;
    when (negb (ToBoolean handler)) (throw MissingEventHandler) ;;
    on <- get target "on" ;;
    call "target.on" on [Val (VStr event); Val handler] ;;
    ret tt) ;;
  modifiers <- get effect "modifiers" ;;
  for_in modifiers (fun attr =>
    modifier <- get modifiers attr ;;
    when (negb (ToBoolean modifier)) (throw MissingModifierCallback) ;;
    setModifier <- get target "setModifier" ;;
    call "target.setModifier" setModifier [Val (VStr attr); Val modifier] ;;
    ret tt).

Definition deactivate : M unit :=
  behavior <- this_get "_effect" ;;
  off <- get behavior "deactivate" ;;
  call "this[_effect].deactivate" off [] ;;
  options <- this_get "_options" ;;
  supplied <- get options "deactivate" ;;
  when (ToBoolean supplied)
    (options <- this_get "_options" ;;
     off <- get options "deactivate" ;;
     call "this[_options].deactivate" off [] ;;
     ret tt) ;;
  effect <- identifier [] "effect" ;;
  declared <- get effect "events" ;;
  let events := or_else declared (VObj []) in
  for_in events (fun event =>
    target <- identifier [("events", events); ("event", VStr event)] "target" ;;
    removeListener <- get target "removeListener" ;;
    call "target.removeListener" removeListener [Val (VStr event)] ;;
    ret tt).

(** ** Vocabulary of the statements *)

(** [o.key], undefined where the read would throw. *)
Definition prop (o : value) (key : string) : value :=
  match get_property o key with
  | Return v => v
  | Throw _ => VUndefined
  end.

(** Whether [o] has the key [key]. *)
Definition supplied (o : value) (key : string) : bool :=
  existsb (String.eqb key) (own_keys o).

(** The first check of the construction contract that fails, in the order
    id, options, type, target, add-effect capability. *)
Definition first_failure (id options type target : value) : option JsError :=
  if negb (ToBoolean id) then Some MissingId
  else if negb (ToBoolean options) || Nat.eqb (List.length (own_keys options)) 0
  then Some MissingOptions
  else if negb (ToBoolean type) then Some MissingType
  else if negb (ToBoolean target) then Some MissingTarget
  else if negb (ToBoolean (prop target "addEffect")) then Some UnsupportedTargetKind
  else None.

(** The instance a successful construction yields. *)
Definition constructed (id options type target behavior : value) : Effect :=
  mkEffect id options type target VUndefined VUndefined behavior.

(** Registering the entries of [o] under [keys] through the function [f] of
    the target, up to the first entry that has no callback. *)
Fixpoint wiring (f : string) (o : value) (keys : list string) (missing : JsError)
  : list event * outcome unit :=
  match keys with
  | key :: rest =>
      if ToBoolean (prop o key)
      then let (t, r) := wiring f o rest missing in
           (Call f [Val (VStr key); Val (prop o key)] :: t, r)
      else ([], Throw missing)
  | [] => ([], Return tt)
  end.

Definition registrations (f : string) (o : value) : list event :=
  map (fun key => Call f [Val (VStr key); Val (prop o key)]) (own_keys o).

Definition all_present (o : value) : bool :=
  forallb (fun key => ToBoolean (prop o key)) (own_keys o).

(** The methods that a caller may run on an instance between construction
    and disposal. *)
Inductive step : Effect -> Effect -> Prop :=
| step_init now this : step this (state_of (init now this))
| step_setElapsed now this : step this (state_of (setElapsed now this))
| step_quit now this : step this (state_of (quit_handler now this))
| step_deactivate this : step this (state_of (deactivate this)).

Inductive reaches : Effect -> Effect -> Prop :=
| reaches_refl this : reaches this this
| reaches_step this mid final :
    reaches this mid -> step mid final -> reaches this final.

(** A run that starts with the call [ev]. *)
Definition after_call {A} (ev : event) (r : Effect * list event * outcome A)
  : Effect * list event * outcome A :=
  (state_of r, ev :: trace_of r, result_of r).

(** A call that registers something on [target]: a call of the function
    found under [on] or under [setModifier]. *)
Definition is_registration (target : value) (ev : event) : Prop :=
  exists name body key what,
    ev = Call name [Val (VStr key); what]
    /\ (get_property target "on" = Return (VFun name body)
        \/ get_property target "setModifier" = Return (VFun name body)).

(** A run that starts with the calls [t]. *)
Definition after_calls {A} (t : list event) (r : Effect * list event * outcome A)
  : Effect * list event * outcome A :=
  (state_of r, (t ++ trace_of r)%list, result_of r).

(** A callback that, if it is called at all, returns: a falsy value is
    never called, and a function is one that returns. *)
Definition returns_if_called (v : value) : Prop :=
  ToBoolean v = false \/ exists g r, v = VFun g (Return r).

(** A method body that throws whatever happens. *)
Definition throwing {A} (m : M A) : Prop :=
  forall this, exists e, result_of (m this) = Throw e.

(** A method body that leaves the instance as it found it. *)
Definition preserving {A} (m : M A) : Prop :=
  forall this, state_of (m this) = this.

(** ** A scenario: a poison on a player *)

Definition fn (name : string) : value := VFun name (Return VUndefined).

Definition player : value :=
  VObj [ ("addEffect", fn "player.addEffect");
         ("on", fn "player.on");
         ("removeListener", fn "player.removeListener");
         ("setModifier", fn "player.setModifier") ].

Definition poison : value :=
  VObj [ ("name", VStr "Poison");
         ("desc", VStr "You feel sick.");
         ("aura", VStr "sickly");
         ("activate", fn "poison.activate");
         ("deactivate", fn "poison.deactivate");
         ("events", VObj [("hit", fn "poison.onHit")]);
         ("modifiers", VObj [("health", fn "poison.health")]) ].

Definition effects_registry (target type options : value) : outcome value :=
  Return poison.

Definition timed (duration : Z) : value :=
  VObj [("duration", VNum (Num duration))].

Definition announced (duration : Z) : value :=
  VObj [ ("duration", VNum (Num duration));
         ("activate", fn "options.activate");
         ("deactivate", fn "options.deactivate") ].

(** Options whose duration is zero, and options that resume a clock
    anchored at the epoch. *)
Definition instant : value := timed 0.

Definition resumed_at_epoch : value :=
  VObj [("duration", VNum (Num 1000)); ("started", VNum (Num 0))].

Definition elapsed_null : value :=
  VObj [("duration", VNum (Num 1000)); ("elapsed", VNull)].

Definition poison_on_player (options : value) : Effect :=
  constructed (VStr "poison1") options (VStr "poison") player poison.

(** A descriptor that declares an event and a modifier, both without a
    callback. *)
Definition malformed : value :=
  VObj [ ("activate", fn "malformed.activate");
         ("deactivate", fn "malformed.deactivate");
         ("events", VObj [("hit", VNull)]);
         ("modifiers", VObj [("health", VNull)]) ].

(** Two instances that differ at most in their timing fields. *)
Definition same_wiring (a b : Effect) : Prop :=
  _id a = _id b /\ _options a = _options b /\ _type a = _type b
  /\ _target a = _target b /\ _effect a = _effect b.

(** Two method bodies that, run on instances with the same wiring, make the
    same calls, end the same way and leave instances with the same wiring. *)
Definition agrees {A} (m1 m2 : M A) : Prop :=
  forall a b, same_wiring a b ->
    trace_of (m1 a) = trace_of (m2 b)
    /\ result_of (m1 a) = result_of (m2 b)
    /\ same_wiring (state_of (m1 a)) (state_of (m2 b)).

(** The registration of the entry of [o] under [key] through [f]. *)
Definition registration (f : string) (o : value) (key : string) : event :=
  Call f [Val (VStr key); Val (prop o key)].

(** What [isValid] hands back when it is asked of a current effect. *)
Definition predicate_verdict (this : Effect) : Effect * list event * outcome value :=
  match prop (_options this) "predicate" with
  | VFun p body => (this, [Call p []], body)
  | v => if ToBoolean v
         then (this, [], Throw (TypeError "predicate is not a function"))
         else (this, [], Return (VBool true))
  end.

(** A descriptor whose second event has no handler, one whose second
    modifier has no callback, and one that declares nothing. *)
Definition half_wired : value :=
  VObj [ ("activate", fn "curse.activate");
         ("deactivate", fn "curse.deactivate");
         ("events", VObj [("hit", fn "curse.onHit"); ("miss", VNull);
                          ("kill", fn "curse.onKill")]);
         ("modifiers", VObj [("health", fn "curse.health")]) ].

Definition half_modified : value :=
  VObj [ ("activate", fn "hex.activate");
         ("deactivate", fn "hex.deactivate");
         ("events", VObj [("hit", fn "hex.onHit")]);
         ("modifiers", VObj [("health", fn "hex.health"); ("mana", VUndefined)]) ].

Definition bare : value :=
  VObj [ ("activate", fn "mark.activate");
         ("deactivate", fn "mark.deactivate") ].

(** Options with a predicate that answers 0, and options whose duration is
    no number. *)
Definition guarded (duration : Z) : value :=
  VObj [ ("duration", VNum (Num duration));
         ("predicate", VFun "stillCursed" (Return (VNum (Num 0)))) ].

Definition vague : value := VObj [("duration", VStr "a while")].


(** * Properties *)

(** ** Running method bodies *)

Lemma run_eta {A} (r : Effect * list event * outcome A) :
  (state_of r, trace_of r, result_of r) = r.
Proof. destruct r as [[this t] o]. reflexivity. Qed.

Lemma run_bind {A B} (m : M A) (k : A -> M B) (this : Effect) :
  bind m k this =
    match result_of (m this) with
    | Return a =>
        (state_of (k a (state_of (m this))),
         (trace_of (m this) ++ trace_of (k a (state_of (m this))))%list,
         result_of (k a (state_of (m this))))
    | Throw e => (state_of (m this), trace_of (m this), Throw e)
    end.
Proof. reflexivity. Qed.

Lemma bind_ret {A B} (a : A) (k : A -> M B) (this : Effect) :
  bind (ret a) k this = k a this.
Proof. unfold bind. cbn. apply run_eta. Qed.

Lemma bind_throw {A B} (e : JsError) (k : A -> M B) (this : Effect) :
  bind (throw e) k this = (this, [], Throw e).
Proof. reflexivity. Qed.

Lemma bind_lift {A B} (r : outcome A) (k : A -> M B) (this : Effect) :
  bind (lift r) k this =
    match r with
    | Return a => k a this
    | Throw e => (this, [], Throw e)
    end.
Proof. destruct r; [apply (bind_ret a) | reflexivity]. Qed.

Lemma bind_read {B} (field : Effect -> value) (k : value -> M B) (this : Effect) :
  bind (read field) k this = k (field this) this.
Proof. unfold bind. cbn. apply run_eta. Qed.

Lemma bind_write {B} (update : Effect -> Effect) (k : unit -> M B) (this : Effect) :
  bind (write update) k this = k tt (update this).
Proof. unfold bind. cbn. apply run_eta. Qed.

Lemma bind_call {B} (callee name : string) (body : outcome value)
  (args : list arg) (k : value -> M B) (this : Effect) :
  bind (call callee (VFun name body) args) k this =
    match body with
    | Return v => after_call (Call name args) (k v this)
    | Throw e => (this, [Call name args], Throw e)
    end.
Proof. unfold bind. cbn. destruct body; reflexivity. Qed.

Lemma bind_assoc {A B C} (m : M A) (k : A -> M B) (h : B -> M C) (this : Effect) :
  bind (bind m k) h this = bind m (fun a => bind (k a) h) this.
Proof.
  unfold bind. cbn.
  destruct (m this) as [[this1 t1] [a | e]]; cbn; [| reflexivity].
  destruct (k a this1) as [[this2 t2] [b | e]]; cbn; [| reflexivity].
  rewrite app_assoc. reflexivity.
Qed.

Lemma this_get_options : this_get "_options" = read _options.
Proof. reflexivity. Qed.
Lemma this_get_target : this_get "_target" = read _target.
Proof. reflexivity. Qed.
Lemma this_get_started : this_get "_started" = read _started.
Proof. reflexivity. Qed.
Lemma this_get_effect : this_get "_effect" = read _effect.
Proof. reflexivity. Qed.
Lemma this_get_event :
  this_get "_event" = throw (ReferenceError "_event is not defined").
Proof. reflexivity. Qed.
Lemma this_set_id v : this_set "_id" v = write (set_id v).
Proof. reflexivity. Qed.
Lemma this_set_type v : this_set "_type" v = write (set_type v).
Proof. reflexivity. Qed.
Lemma this_set_target v : this_set "_target" v = write (set_target v).
Proof. reflexivity. Qed.
Lemma this_set_options v : this_set "_options" v = write (set_options v).
Proof. reflexivity. Qed.
Lemma this_set_effect v : this_set "_effect" v = write (set_effect v).
Proof. reflexivity. Qed.
Lemma this_set_started v : this_set "_started" v = write (set_started v).
Proof. reflexivity. Qed.
Lemma this_set_elapsed v : this_set "_elapsed" v = write (set_elapsed v).
Proof. reflexivity. Qed.

Lemma identifier_unbound (x : string) :
  identifier [] x = throw (ReferenceError (x ++ " is not defined")).
Proof. reflexivity. Qed.

Create Rewrite HintDb fields.
#[local] Hint Rewrite
  this_get_options this_get_target this_get_started this_get_effect
  this_get_event this_set_id this_set_type this_set_target this_set_options
  this_set_effect this_set_started this_set_elapsed identifier_unbound
  : fields.

(** One step of a method body: the first action of a sequence is run and
    the sequence goes on with what it answered. *)
Lemma bind_Effects_get {B} registry (target type options : value)
  (k : value -> M B) (this : Effect) :
  bind (Effects_get registry target type options) k this =
    match registry target type options with
    | Return behavior => after_call (Resolve target type options) (k behavior this)
    | Throw e => (this, [Resolve target type options], Throw e)
    end.
Proof.
  unfold bind, Effects_get. cbn.
  destruct (registry target type options); reflexivity.
Qed.

Lemma bind_then {A B} (m : M A) (k : A -> M B) (this this' : Effect)
  (t : list event) (r : outcome A) :
  m this = (this', t, r) ->
  bind m k this =
    match r with
    | Return a => after_calls t (k a this')
    | Throw e => (this', t, Throw e)
    end.
Proof. intros H. rewrite run_bind, H. destruct r; reflexivity. Qed.

Lemma after_no_calls {A} (r : Effect * list event * outcome A) :
  after_calls [] r = r.
Proof. apply run_eta. Qed.

Lemma bind_lift_Return {A B} (a : A) (k : A -> M B) (this : Effect) :
  bind (lift (Return a)) k this = k a this.
Proof. apply (bind_ret a). Qed.

Ltac run_step :=
  first [ rewrite bind_assoc
        | rewrite bind_lift_Return
        | rewrite bind_Effects_get
        | rewrite bind_ret
        | rewrite bind_throw
        | rewrite bind_read
        | rewrite bind_write
        | rewrite bind_call ];
  cbv beta.

Ltac fields :=
  cbn [_id _options _type _target _elapsed _started _effect
       set_id set_options set_type set_target set_elapsed set_started
       set_effect fresh_object constructed call].

Ltac run :=
  unfold get, when;
  repeat first [ progress autorewrite with fields | run_step ].

(** A truthy value is neither undefined nor null, so reading off it does not
    throw. *)
Lemma truthy_get (o : value) (key : string) :
  ToBoolean o = true -> get_property o key = Return (prop o key).
Proof.
  unfold prop. destruct o; cbn; intros H; try discriminate; reflexivity.
Qed.

Lemma get_prop (o : value) (key : string) (v : value) :
  get_property o key = Return v -> prop o key = v.
Proof. unfold prop. intros ->. reflexivity. Qed.

Lemma validate_first_failure (id options type target : value) (this : Effect) :
  validate id options type target this =
    (this, [], match first_failure id options type target with
               | Some e => Throw e
               | None => Return tt
               end).
Proof.
  unfold validate, first_failure. run.
  destruct (ToBoolean id); cbn; run; [| reflexivity].
  destruct (ToBoolean options) eqn:Ho; cbn; run; [| reflexivity].
  assert (Hk : Object_keys options = Return (own_keys options)).
  { destruct options; cbn in *; try discriminate; reflexivity. }
  rewrite Hk. run.
  destruct (Nat.eqb (List.length (own_keys options)) 0); cbn; run; [reflexivity |].
  destruct (ToBoolean type); cbn; run; [| reflexivity].
  destruct (ToBoolean target) eqn:Ht; cbn; run; [| reflexivity].
  rewrite (truthy_get _ _ Ht). run.
  destruct (ToBoolean (prop target "addEffect")); reflexivity.
Qed.

(** ** Traces *)

Section Traces.

Variable P : event -> Prop.

Lemma trace_bind {A B} (m : M A) (k : A -> M B) (this : Effect) :
  Forall P (trace_of (m this)) ->
  (forall a, result_of (m this) = Return a ->
             Forall P (trace_of (k a (state_of (m this))))) ->
  Forall P (trace_of (bind m k this)).
Proof.
  intros Hm Hk. rewrite run_bind.
  destruct (result_of (m this)) as [a | e] eqn:Hr; cbn.
  - apply Forall_app. split; [exact Hm | apply Hk; reflexivity].
  - exact Hm.
Qed.

Lemma trace_for_each (keys : list string) (body : string -> M unit) :
  (forall key this, Forall P (trace_of (body key this))) ->
  forall this, Forall P (trace_of (for_each keys body this)).
Proof.
  intros Hbody. induction keys as [| key rest IH]; intros this; cbn.
  - constructor.
  - apply trace_bind; [apply Hbody | intros _ _; apply IH].
Qed.

Lemma trace_call (callee : string) (f : value) (args : list arg) (this : Effect) :
  (forall name body, f = VFun name body -> P (Call name args)) ->
  Forall P (trace_of (call callee f args this)).
Proof.
  intros Hf. destruct f; cbn; try constructor.
  - apply (Hf name body). reflexivity.
  - constructor.
Qed.

End Traces.

(** Reads, tests and throws record nothing. *)
Ltac silent := cbn; constructor.

(** ** Construction *)

(** C3. Construction checks id, then options (present and non-empty), then
    type, then target, then the target's add-effect capability, and stops at
    the first check that fails; the five failures are five different
    errors; when a check fails nothing else happens (the registry is not
    consulted, nothing is activated) and no instance is produced, and when
    none fails construction goes on to the registry. *)
Theorem construction_validates_in_order
  (registry : value -> value -> value -> outcome value)
  (id options type target : value) :
  (forall this,
      validate id options type target this =
        (this, [], match first_failure id options type target with
                   | Some e => Throw e
                   | None => Return tt
                   end))
  /\ NoDup [MissingId; MissingOptions; MissingType; MissingTarget;
            UnsupportedTargetKind]
  /\ match first_failure id options type target with
     | Some e => new_Effect registry id options type target = ([], Throw e)
     | None =>
         exists t,
           fst (new_Effect registry id options type target)
           = Resolve target type options :: t
     end.
Proof.
  split; [| split].
  - intros this. apply validate_first_failure.
  - unfold MissingId, MissingOptions, MissingType, MissingTarget,
      UnsupportedTargetKind.
    repeat constructor; cbn; intuition discriminate.
  - unfold new_Effect, constructor.
    rewrite run_bind, validate_first_failure.
    destruct (first_failure id options type target); [reflexivity |].
    cbn [result_of state_of trace_of fst snd app].
    run.
    destruct (registry target type options) as [behavior | e].
    + match goal with
      | |- context [after_call _ ?r] => destruct r as [[this' t'] [u | e]]
      end; cbn; eexists; reflexivity.
    + cbn. eexists. reflexivity.
Qed.

(** Once one read off [o] has not thrown, no read off [o] throws. *)
Lemma get_again (o : value) (key key' : string) (v : value) :
  get_property o key = Return v ->
  get_property o key' = Return (prop o key').
Proof.
  unfold prop. destruct o; cbn; intros H; try discriminate; reflexivity.
Qed.

(** [init] only registers: every call it makes is a call of the target's
    [on] or [setModifier]. *)
Lemma init_only_registers (now : Z) (this : Effect) :
  Forall (is_registration (_target this)) (trace_of (init now this)).
Proof.
  unfold init. autorewrite with fields. unfold get, for_in.
  apply trace_bind; [silent | intros target Ht; cbn in Ht; injection Ht as <-].
  apply trace_bind; [silent | intros options _].
  apply trace_bind; [silent | intros duration _].
  apply trace_bind.
  { unfold when. destruct (ToBoolean duration); [| silent].
    repeat (apply trace_bind; [silent | intros]). silent. }
  intros _ _.
  apply trace_bind; [silent | intros effect _].
  apply trace_bind; [silent | intros on Hon; cbn in Hon].
  apply trace_bind.
  { apply trace_call. intros name body ->.
    exists name, body, "quit", QuitClosure. split; [reflexivity |].
    left. exact Hon. }
  intros _ _.
  apply trace_bind; [silent | intros declared _].
  apply trace_bind.
  { apply trace_for_each. intros event this'.
    apply trace_bind; [silent | intros handler _].
    apply trace_bind; [unfold when; destruct (negb (ToBoolean handler)); silent | intros _ _].
    apply trace_bind; [silent | intros on' Hon'; cbn in Hon'].
    apply trace_bind; [| intros; silent].
    apply trace_call. intros name body ->.
    exists name, body, event, (Val handler). split; [reflexivity |].
    left. exact Hon'. }
  intros _ _.
  apply trace_bind; [silent | intros modifiers _].
  apply trace_for_each. intros attr this'.
  apply trace_bind; [silent | intros modifier _].
  apply trace_bind; [unfold when; destruct (negb (ToBoolean modifier)); silent | intros _ _].
  apply trace_bind; [silent | intros sm Hsm; cbn in Hsm].
  apply trace_bind; [| intros; silent].
  apply trace_call. intros name body ->.
  exists name, body, attr, (Val modifier). split; [reflexivity |].
  right. exact Hsm.
Qed.

Lemma validated_truthy (id options type target : value) :
  first_failure id options type target = None ->
  ToBoolean options = true /\ ToBoolean target = true.
Proof.
  unfold first_failure.
  destruct (ToBoolean id), (ToBoolean options), (ToBoolean target),
    (ToBoolean type); cbn; try discriminate;
    destruct (Nat.eqb (List.length (own_keys options)) 0); cbn;
    try discriminate; auto.
Qed.

(** C8. Once validation has passed, construction asks the registry for the
    behavior once, calls the behavior's activate with the options and the
    target whatever the options, then calls the activate of the options with
    the target when one was supplied (and not otherwise), and hands out the
    instance only after these calls have returned; [init] makes no call but
    registrations on the target. *)
Theorem construction_activates_once
  (registry : value -> value -> value -> outcome value)
  (id options type target behavior : value) (f : string)
  (body : outcome value) :
  first_failure id options type target = None ->
  registry target type options = Return behavior ->
  get_property behavior "activate" = Return (VFun f body) ->
  let instance := constructed id options type target behavior in
  let resolved :=
    [Resolve target type options; Call f [Val options; Val target]] in
  new_Effect registry id options type target =
    match body with
    | Throw e => (resolved, Throw e)
    | Return _ =>
        match prop options "activate" with
        | VFun g (Return _) =>
            (resolved ++ [Call g [Val target]], Return instance)%list
        | VFun g (Throw e) => (resolved ++ [Call g [Val target]], Throw e)%list
        | supplied =>
            if ToBoolean supplied
            then (resolved,
                  Throw (TypeError "this[_options].activate is not a function"))
            else (resolved, Return instance)
        end
    end
  /\ forall now this,
       Forall (is_registration (_target this)) (trace_of (init now this)).
Proof.
  intros Hv Hreg Hact instance resolved.
  split; [| intros now this; apply init_only_registers].
  destruct (validated_truthy _ _ _ _ Hv) as [Ho _].
  unfold new_Effect, constructor.
  rewrite run_bind, validate_first_failure, Hv.
  cbn [result_of state_of trace_of fst snd app].
  run. rewrite Hreg. run. fields. rewrite Hact. run.
  destruct body as [r | e]; [| reflexivity].
  fields. rewrite (truthy_get _ "activate" Ho). run.
  destruct (prop options "activate")
    as [| | [|] | [| | | z] | s | props | g [v | e]] eqn:Hp;
    cbn [ToBoolean];
    try match goal with
        | |- context [if ?b then _ else _] => destruct b
        end;
    repeat (run; fields; rewrite ?(truthy_get _ "activate" Ho), ?Hp);
    reflexivity.
Qed.

Lemma construction_activates_once_witness :
  new_Effect effects_registry (VStr "poison1") (announced 1000) (VStr "poison") player
  = ([ Resolve player (VStr "poison") (announced 1000);
       Call "poison.activate" [Val (announced 1000); Val player];
       Call "options.activate" [Val player] ],
     Return (constructed (VStr "poison1") (announced 1000) (VStr "poison") player poison)).
Proof.
  apply (construction_activates_once effects_registry (VStr "poison1")
           (announced 1000) (VStr "poison") player poison "poison.activate"
           (Return VUndefined)); reflexivity.
Defined.

(** ** Timing *)

Lemma getDuration_run (this : Effect) (d : value) :
  get_property (_options this) "duration" = Return d ->
  getDuration this = (this, [], Return (num_or (parseInt d) Infinity)).
Proof. intros Hd. unfold getDuration. run. rewrite Hd. run. reflexivity. Qed.

Lemma getElapsed_run (now : Z) (this : Effect) :
  getElapsed now this =
    (this, [],
     Return (if isNaN (_started this) then VNull
             else VNum (num_sub (Num now) (ToNumber (_started this))))).
Proof.
  unfold getElapsed. run.
  destruct (isNaN (_started this)); run; reflexivity.
Qed.

Lemma isTemporary_run (this : Effect) (d : value) :
  get_property (_options this) "duration" = Return d ->
  isTemporary this =
    (this, [], Return (num_lt (num_or (parseInt d) Infinity) Infinity)).
Proof.
  intros Hd. unfold isTemporary.
  rewrite run_bind, (getDuration_run _ _ Hd). reflexivity.
Qed.

Lemma isCurrent_run (now : Z) (this : Effect) (d : value) :
  get_property (_options this) "duration" = Return d ->
  isCurrent now this =
    (this, [],
     Return (if num_lt (num_or (parseInt d) Infinity) Infinity
             then num_lt
                    (ToNumber (if isNaN (_started this) then VNull
                               else VNum (num_sub (Num now)
                                            (ToNumber (_started this)))))
                    (num_or (parseInt d) Infinity)
             else true)).
Proof.
  intros Hd. unfold isCurrent.
  rewrite run_bind, (isTemporary_run _ _ Hd).
  cbn [result_of state_of trace_of fst snd app].
  destruct (num_lt (num_or (parseInt d) Infinity) Infinity); [| reflexivity].
  rewrite run_bind, getElapsed_run.
  cbn [result_of state_of trace_of fst snd app].
  rewrite run_bind, (getDuration_run _ _ Hd). reflexivity.
Qed.

Lemma parseInt_finite (v : value) :
  parseInt v = NaN \/ exists z, parseInt v = Num z.
Proof.
  destruct v as [| | b | [| | | z] | s | props | name body]; cbn; auto.
  - right. exists z. reflexivity.
  - unfold parseInt_string.
    destruct (read_sign (skip_white_space s)) as [neg r].
    destruct (fst (read_digits r None)) as [n |]; [right; eexists; reflexivity | auto].
Qed.

(** C6, as the code has it. [getDuration()] returns the duration parsed as
    a base-10 integer when that integer is not zero, and the infinite
    duration exactly when the parse gives no integer (a non-numeric or
    absent duration) or gives zero. *)
Theorem getDuration_parses (this : Effect) (d : value) :
  get_property (_options this) "duration" = Return d ->
  result_of (getDuration this) =
    Return (match parseInt d with
            | Num z => if z =? 0 then Infinity else Num z
            | _ => Infinity
            end)
  /\ (result_of (getDuration this) = Return Infinity
      <-> parseInt d = NaN \/ parseInt d = Num 0)
  /\ trace_of (getDuration this) = []
  /\ state_of (getDuration this) = this.
Proof.
  intros Hd. rewrite (getDuration_run _ _ Hd). cbn [result_of trace_of state_of fst snd].
  unfold num_or. cbn [ToBoolean].
  destruct (parseInt_finite d) as [-> | [z ->]]; cbn.
  - repeat split; auto.
  - destruct (Z.eqb_spec z 0) as [-> | Hz]; cbn; repeat split; auto.
    + intros [= ]. 
    + intros [[= ] | [= ->]]. contradiction.
Qed.

Lemma getDuration_parses_witness :
  result_of (getDuration (poison_on_player (timed 1000))) = Return (Num 1000).
Proof.
  apply (getDuration_parses (poison_on_player (timed 1000)) (VNum (Num 1000))).
  reflexivity.
Defined.

(** C6, as stated, fails: a numeric duration of zero is not returned as
    the integer 0 but as the infinite duration. *)
Lemma getDuration_zero_is_infinite :
  new_Effect effects_registry (VStr "poison1") instant (VStr "poison") player
  = ([Resolve player (VStr "poison") instant;
      Call "poison.activate" [Val instant; Val player]],
     Return (poison_on_player instant))
  /\ get_property (_options (poison_on_player instant)) "duration"
     = Return (VNum (Num 0))
  /\ result_of (getDuration (poison_on_player instant)) = Return Infinity
  /\ result_of (getDuration (poison_on_player instant)) <> Return (Num 0).
Proof. repeat split. discriminate. Qed.

(** ** What a method leaves of the instance *)

Lemma preserving_ret {A} (a : A) : preserving (ret a).
Proof. intros this. reflexivity. Qed.

Lemma preserving_throw {A} (e : JsError) : preserving (@throw A e).
Proof. intros this. reflexivity. Qed.

Lemma preserving_lift {A} (r : outcome A) : preserving (lift r).
Proof. intros this. reflexivity. Qed.

Lemma preserving_read (field : Effect -> value) : preserving (read field).
Proof. intros this. reflexivity. Qed.

Lemma preserving_call (callee : string) (f : value) (args : list arg) :
  preserving (call callee f args).
Proof. intros this. destruct f; reflexivity. Qed.

Lemma preserving_identifier (locals : list (string * value)) (x : string) :
  preserving (identifier locals x).
Proof.
  intros this. unfold identifier.
  destruct (find _ locals); reflexivity.
Qed.

Lemma preserving_bind {A B} (m : M A) (k : A -> M B) :
  preserving m -> (forall a, preserving (k a)) -> preserving (bind m k).
Proof.
  intros Hm Hk this. rewrite run_bind.
  destruct (result_of (m this)); cbn; [rewrite Hk |]; apply Hm.
Qed.

Lemma preserving_when (b : bool) (m : M unit) :
  preserving m -> preserving (when b m).
Proof. intros Hm. destruct b; [exact Hm | apply preserving_ret]. Qed.

Lemma preserving_for_each (keys : list string) (body : string -> M unit) :
  (forall key, preserving (body key)) -> preserving (for_each keys body).
Proof.
  intros Hbody. induction keys as [| key rest IH]; cbn.
  - apply preserving_ret.
  - apply preserving_bind; [apply Hbody | intros _; exact IH].
Qed.

Create HintDb preserving.
#[local] Hint Resolve preserving_ret preserving_throw preserving_lift
  preserving_read preserving_call preserving_identifier : preserving.

Ltac preserve :=
  unfold get, for_in;
  repeat first
    [ apply preserving_bind; [| intros ? ]
    | apply preserving_for_each; intros ?
    | apply preserving_when
    | solve [ auto with preserving ] ].

(** When the rest of a body leaves the instance alone, the state after the
    body is the state after its first action. *)
Lemma state_bind_preserving {A B} (m : M A) (k : A -> M B) (this : Effect) :
  (forall a, preserving (k a)) ->
  state_of (bind m k this) = state_of (m this).
Proof.
  intros Hk. rewrite run_bind.
  destruct (result_of (m this)); cbn; [apply Hk | reflexivity].
Qed.

Lemma deactivate_preserving : preserving deactivate.
Proof.
  unfold deactivate. autorewrite with fields. preserve.
Qed.

Lemma setElapsed_run (now : Z) (this : Effect) :
  setElapsed now this =
    (set_elapsed (if isNaN (_started this) then VNull
                  else VNum (num_sub (Num now) (ToNumber (_started this))))
       this, [], Return tt).
Proof.
  unfold setElapsed. rewrite run_bind, getElapsed_run.
  cbn [result_of state_of trace_of fst snd app]. run. reflexivity.
Qed.

Lemma quit_handler_state (now : Z) (this : Effect) :
  state_of (quit_handler now this) = state_of (setElapsed now this).
Proof.
  unfold quit_handler. apply state_bind_preserving. intros _.
  autorewrite with fields. preserve.
Qed.

(** What [init] leaves of the instance: the two timing fields when the
    duration is truthy, the instance as it was otherwise. *)
Lemma init_state (now : Z) (this : Effect) :
  state_of (init now this) =
    if ToBoolean (prop (_options this) "duration")
    then set_elapsed (or_else (prop (_options this) "elapsed") (VNum (Num 0)))
           (set_started (or_else (prop (_options this) "started") (VNum (Num now)))
              this)
    else this.
Proof.
  unfold init. autorewrite with fields.
  rewrite bind_read; cbv beta. rewrite bind_read; cbv beta. unfold get at 1.
  destruct (get_property (_options this) "duration") as [d | e] eqn:Hd.
  - rewrite bind_lift, (get_prop _ _ _ Hd).
    rewrite state_bind_preserving.
    + destruct (ToBoolean d); [| reflexivity].
      cbn [when]. unfold get.
      rewrite !(get_again _ _ _ _ Hd). run. reflexivity.
    + intros _. preserve.
  - rewrite bind_lift. unfold prop. rewrite Hd. reflexivity.
Qed.

(** C4, as the code has it. When the duration of the options is truthy,
    [init] sets the anchor to the started of the options when that is truthy
    and to the current time otherwise, and the elapsed to the elapsed of the
    options when that is truthy and to 0 otherwise; when the duration is not
    truthy (absent, 0, NaN, null, empty) [init] writes no timing field.  No
    other field is ever written, whether [init] returns or throws. *)
Theorem init_anchors_timing (now : Z) (this : Effect) :
  let options := _options this in
  let after := state_of (init now this) in
  (if ToBoolean (prop options "duration")
   then _started after = or_else (prop options "started") (VNum (Num now))
        /\ _elapsed after = or_else (prop options "elapsed") (VNum (Num 0))
   else _started after = _started this /\ _elapsed after = _elapsed this)
  /\ _id after = _id this /\ _options after = options
  /\ _type after = _type this /\ _target after = _target this
  /\ _effect after = _effect this.
Proof.
  cbn zeta. rewrite init_state.
  destruct (ToBoolean (prop (_options this) "duration")); cbn; auto 10.
Qed.

(** C4, as stated, fails: a supplied started of 0 is replaced by the
    current time, a supplied elapsed of null by 0, and with a supplied
    duration of 0 no anchor is established. *)
Lemma init_timing_counterexample :
  (supplied resumed_at_epoch "started" = true
   /\ prop resumed_at_epoch "started" = VNum (Num 0)
   /\ _started (state_of (init 5000 (poison_on_player resumed_at_epoch)))
      = VNum (Num 5000))
  /\ (supplied elapsed_null "elapsed" = true
      /\ prop elapsed_null "elapsed" = VNull
      /\ _elapsed (state_of (init 5000 (poison_on_player elapsed_null)))
         = VNum (Num 0))
  /\ (supplied instant "duration" = true
      /\ _started (state_of (init 5000 (poison_on_player instant)))
         = VUndefined).
Proof. repeat split. Qed.

Lemma lookup_absent (key : string) (props : list (string * value)) :
  existsb (String.eqb key) (map fst props) = false ->
  lookup key props = VUndefined.
Proof.
  induction props as [| [k v] rest IH]; cbn; [reflexivity |].
  intros H. apply orb_false_elim in H as [Hk Hrest].
  rewrite String.eqb_sym, Hk. apply IH, Hrest.
Qed.

Lemma no_duration (options : value) :
  supplied options "duration" = false -> prop options "duration" = VUndefined.
Proof.
  destruct options as [| | b | n | s | props | name body];
    try (intros _; reflexivity).
  intros H. apply (lookup_absent "duration" props), H.
Qed.

(** The instance a construction hands out. *)
Lemma new_Effect_instance
  (registry : value -> value -> value -> outcome value)
  (id options type target : value) (t : list event) (e : Effect) :
  new_Effect registry id options type target = (t, Return e) ->
  first_failure id options type target = None
  /\ exists behavior,
       registry target type options = Return behavior
       /\ e = constructed id options type target behavior.
Proof.
  unfold new_Effect, constructor.
  rewrite run_bind, validate_first_failure.
  destruct (first_failure id options type target) as [err |];
    cbn [result_of state_of trace_of fst snd app]; [discriminate |].
  autorewrite with fields. repeat (rewrite bind_write; cbv beta).
  rewrite bind_Effects_get.
  destruct (registry target type options) as [behavior | err];
    [| cbn; discriminate].
  autorewrite with fields. repeat (rewrite bind_write; cbv beta).
  intros H. split; [reflexivity |]. exists behavior. split; [reflexivity |].
  match type of H with
  | context [after_call _ (?m ?s)] =>
      assert (Hs : state_of (m s) = s)
        by (generalize s; fold (preserving m); autorewrite with fields; preserve)
  end.
  unfold after_call in H. cbn [result_of state_of trace_of fst snd] in H.
  rewrite Hs in H.
  match type of H with
  | match ?r with _ => _ end = _ => destruct r; inversion H
  end.
  reflexivity.
Qed.

(** The options never change, and without a truthy duration no method
    ever sets the anchor. *)
Lemma step_keeps_unanchored (this later : Effect) :
  step this later ->
  ToBoolean (prop (_options this) "duration") = false ->
  _started this = VUndefined ->
  _options later = _options this /\ _started later = VUndefined.
Proof.
  intros Hstep Hd Hs. destruct Hstep as [now this | now this | now this | this].
  - rewrite init_state, Hd. auto.
  - rewrite setElapsed_run. cbn. auto.
  - rewrite quit_handler_state, setElapsed_run. cbn. auto.
  - rewrite deactivate_preserving. auto.
Qed.

Lemma reaches_keeps_unanchored (this later : Effect) :
  reaches this later ->
  ToBoolean (prop (_options this) "duration") = false ->
  _started this = VUndefined ->
  _options later = _options this /\ _started later = VUndefined.
Proof.
  intros Hreach Hd Hs.
  induction Hreach as [this | this mid final Hreach IH Hstep]; [auto |].
  destruct (IH Hd Hs) as [Ho Hm].
  destruct (step_keeps_unanchored mid final Hstep) as [Ho' Hf];
    rewrite ?Ho; auto.
  split; [congruence | exact Hf].
Qed.

(** C5. An effect constructed with no duration key in its options is not
    temporary, is current at every time and has no elapsed time (null),
    whatever was run on it since its construction: no anchor was ever
    established. *)
Theorem permanent_effect_has_no_clock
  (registry : value -> value -> value -> outcome value)
  (id options type target : value) (t : list event) (e later : Effect)
  (now : Z) :
  new_Effect registry id options type target = (t, Return e) ->
  supplied options "duration" = false ->
  reaches e later ->
  result_of (isTemporary later) = Return false
  /\ result_of (isCurrent now later) = Return true
  /\ result_of (getElapsed now later) = Return VNull
  /\ _started later = VUndefined.
Proof.
  intros Hnew Hsup Hreach.
  destruct (new_Effect_instance _ _ _ _ _ _ _ Hnew) as [Hv [behavior [_ ->]]].
  destruct (validated_truthy _ _ _ _ Hv) as [Ho _].
  pose proof (no_duration _ Hsup) as Hd.
  destruct (reaches_keeps_unanchored _ _ Hreach) as [Hopt Hst];
    cbn [_options _started constructed]; [rewrite Hd; reflexivity | reflexivity |].
  cbn [_options constructed] in Hopt.
  assert (Hget : get_property (_options later) "duration" = Return VUndefined).
  { rewrite Hopt, (truthy_get _ _ Ho), Hd. reflexivity. }
  rewrite (isTemporary_run _ _ Hget), (isCurrent_run _ _ _ Hget),
    getElapsed_run, Hst.
  repeat split.
Qed.

Lemma permanent_effect_has_no_clock_witness :
  result_of (isCurrent 99999
               (state_of (init 5000 (poison_on_player (VObj [("note", VStr "lasting")])))))
  = Return true.
Proof.
  apply (permanent_effect_has_no_clock effects_registry (VStr "poison1")
           (VObj [("note", VStr "lasting")]) (VStr "poison") player
           [Resolve player (VStr "poison") (VObj [("note", VStr "lasting")]);
            Call "poison.activate" [Val (VObj [("note", VStr "lasting")]); Val player]]
           (poison_on_player (VObj [("note", VStr "lasting")]))).
  - reflexivity.
  - reflexivity.
  - eapply reaches_step; [apply reaches_refl | apply step_init].
Defined.

(** C10. An effect constructed with a finite positive duration, on which
    [init] has not run, has no elapsed time (null) and yet reads as
    current: it is temporary, and null compares as less than its
    duration. *)
Theorem unanchored_effect_reads_current
  (registry : value -> value -> value -> outcome value)
  (id options type target : value) (t : list event) (e : Effect)
  (d now : Z) :
  new_Effect registry id options type target = (t, Return e) ->
  prop options "duration" = VNum (Num d) ->
  0 < d ->
  result_of (getElapsed now e) = Return VNull
  /\ result_of (isTemporary e) = Return true
  /\ result_of (isCurrent now e) = Return true
  /\ num_lt (ToNumber VNull) (Num d) = true.
Proof.
  intros Hnew Hd Hpos.
  destruct (new_Effect_instance _ _ _ _ _ _ _ Hnew) as [Hv [behavior [_ ->]]].
  destruct (validated_truthy _ _ _ _ Hv) as [Ho _].
  assert (Hget : get_property
                   (_options (constructed id options type target behavior))
                   "duration" = Return (VNum (Num d))).
  { cbn [_options constructed]. rewrite (truthy_get _ _ Ho), Hd. reflexivity. }
  rewrite (isTemporary_run _ _ Hget), (isCurrent_run _ _ _ Hget), getElapsed_run.
  cbn [_started constructed result_of snd parseInt].
  assert (Hnz : (d =? 0) = false) by (apply Z.eqb_neq; lia).
  assert (Hlt : (0 <? d) = true) by (apply Z.ltb_lt; lia).
  unfold num_or. cbn. rewrite Hnz. cbn. rewrite Hlt. auto.
Qed.

Lemma unanchored_effect_reads_current_witness :
  result_of (getElapsed 5000 (poison_on_player (timed 1000))) = Return VNull
  /\ result_of (isTemporary (poison_on_player (timed 1000))) = Return true
  /\ result_of (isCurrent 5000 (poison_on_player (timed 1000))) = Return true
  /\ num_lt (ToNumber VNull) (Num 1000) = true.
Proof.
  apply (unanchored_effect_reads_current effects_registry (VStr "poison1")
           (timed 1000) (VStr "poison") player
           [Resolve player (VStr "poison") (timed 1000);
            Call "poison.activate" [Val (timed 1000); Val player]]
           (poison_on_player (timed 1000)) 1000 5000).
  - reflexivity.
  - reflexivity.
  - lia.
Defined.

(** ** Wiring *)

Lemma own_keys_get (o : value) (key : string) :
  In key (own_keys o) -> get_property o key = Return (prop o key).
Proof.
  unfold prop. destruct o; cbn [own_keys]; intros H;
    try contradiction; reflexivity.
Qed.

(** The loop of [init] over the declared events, and the one over the
    declared modifiers. *)
Lemma for_each_wiring (o target : value) (member callee f : string)
  (r : value) (missing : JsError) (keys : list string) (this : Effect) :
  get_property target member = Return (VFun f (Return r)) ->
  (forall key, In key keys -> get_property o key = Return (prop o key)) ->
  for_each keys
    (fun key =>
       entry <- lift (get_property o key) ;;
       when (negb (ToBoolean entry)) (throw missing) ;;
       register <- lift (get_property target member) ;;
       call callee register [Val (VStr key); Val entry] ;;
       ret tt) this
  = (this, fst (wiring f o keys missing), snd (wiring f o keys missing)).
Proof.
  intros Hf. induction keys as [| key rest IH]; intros Hkeys; [reflexivity |].
  cbn [for_each wiring].
  match goal with
  | |- context [for_each rest ?body] =>
      remember (for_each rest body) as loop eqn:Hloop
  end.
  rewrite bind_assoc, (Hkeys key (or_introl eq_refl)), bind_lift_Return.
  destruct (ToBoolean (prop o key)); cbn [negb when].
  - rewrite bind_assoc, bind_ret, bind_assoc, Hf, bind_lift_Return.
    rewrite bind_assoc, bind_call, bind_ret. subst loop. rewrite IH.
    + destruct (wiring f o rest missing) as [t' r']. reflexivity.
    + intros key' Hin. apply Hkeys. right. exact Hin.
  - rewrite bind_assoc, bind_throw. reflexivity.
Qed.

Lemma wiring_all_present (f : string) (o : value) (missing : JsError)
  (keys : list string) :
  forallb (fun key => ToBoolean (prop o key)) keys = true ->
  wiring f o keys missing =
    (map (fun key => Call f [Val (VStr key); Val (prop o key)]) keys, Return tt).
Proof.
  induction keys as [| key rest IH]; cbn [forallb wiring map]; [reflexivity |].
  intros H. apply andb_prop in H as [Hkey Hrest].
  rewrite Hkey, (IH Hrest). reflexivity.
Qed.

Lemma wiring_missing (f : string) (o : value) (missing : JsError)
  (keys : list string) :
  forallb (fun key => ToBoolean (prop o key)) keys = false ->
  snd (wiring f o keys missing) = Throw missing.
Proof.
  induction keys as [| key rest IH]; cbn [forallb wiring]; [discriminate |].
  destruct (ToBoolean (prop o key)); cbn [andb]; [| reflexivity].
  intros H. specialize (IH H).
  destruct (wiring f o rest missing) as [t' r']. exact IH.
Qed.

(** The calls and the result of [init] on a target whose [on] and
    [setModifier] are functions that return. *)
Lemma init_run (now : Z) (this : Effect) (on setModifier : string)
  (r1 r2 : value) :
  ToBoolean (_options this) = true ->
  ToBoolean (_effect this) = true ->
  get_property (_target this) "on" = Return (VFun on (Return r1)) ->
  get_property (_target this) "setModifier"
  = Return (VFun setModifier (Return r2)) ->
  let events := or_else (prop (_effect this) "events") (VObj []) in
  let modifiers := prop (_effect this) "modifiers" in
  let listeners := wiring on events (own_keys events) MissingEventHandler in
  let installed :=
    wiring setModifier modifiers (own_keys modifiers) MissingModifierCallback in
  let quit := Call on [Val (VStr "quit"); QuitClosure] in
  (trace_of (init now this), result_of (init now this)) =
    match snd listeners with
    | Return _ => ((quit :: fst listeners ++ fst installed)%list, snd installed)
    | Throw e => (quit :: fst listeners, Throw e)
    end.
Proof.
  intros Ho He Hon Hsm events modifiers listeners installed quit.
  enough (H : exists this',
             init now this =
               match snd listeners with
               | Return _ =>
                   (this', (quit :: fst listeners ++ fst installed)%list,
                    snd installed)
               | Throw e => (this', quit :: fst listeners, Throw e)
               end).
  { destruct H as [this' ->]. destruct (snd listeners); reflexivity. }
  assert (Htiming :
    exists this',
      when (ToBoolean (prop (_options this) "duration"))
        (started <- get (_options this) "started" ;;
         this_set "_started" (or_else started (VNum (Num now))) ;;
         elapsed <- get (_options this) "elapsed" ;;
         this_set "_elapsed" (or_else elapsed (VNum (Num 0)))) this
      = (this', [], Return tt) /\ _effect this' = _effect this).
  { destruct (ToBoolean (prop (_options this) "duration")); cbn [when].
    - unfold get. rewrite !(truthy_get _ _ Ho). run.
      eexists. split; reflexivity.
    - exists this. split; reflexivity. }
  destruct Htiming as [this' [Htiming Heff]]. exists this'.
  assert (Hevents : forall key, get_property events key = Return (prop events key)).
  { intros key. apply truthy_get. unfold events, or_else.
    destruct (ToBoolean (prop (_effect this) "events")) eqn:Hev;
      [exact Hev | reflexivity]. }
  unfold init. autorewrite with fields.
  rewrite bind_read; cbv beta. rewrite bind_read; cbv beta.
  unfold get at 1. rewrite (truthy_get _ "duration" Ho), bind_lift_Return.
  rewrite (bind_then _ _ _ _ _ _ Htiming), after_no_calls.
  rewrite bind_read; cbv beta. rewrite Heff.
  unfold get, for_in.
  rewrite Hon at 1. rewrite bind_lift_Return, bind_call.
  rewrite (truthy_get _ "events" He), bind_lift_Return.
  fold events.
  rewrite (bind_then _ _ _ _ _ _
             (for_each_wiring events (_target this) "on" "target.on" on r1
                MissingEventHandler (own_keys events) this' Hon
                (fun key _ => Hevents key))).
  fold listeners.
  destruct (snd listeners) as [u | e]; [| reflexivity].
  rewrite (truthy_get _ "modifiers" He), bind_lift_Return.
  fold modifiers.
  rewrite (for_each_wiring modifiers (_target this) "setModifier"
             "target.setModifier" setModifier r2
             MissingModifierCallback (own_keys modifiers) this' Hsm
             (fun key Hin => own_keys_get modifiers key Hin)).
  reflexivity.
Qed.

(** C7, as the code has it. On a target whose [on] and [setModifier]
    return, [init] registers the quit handler, then every declared event
    handler, then installs every declared modifier, in declaration order;
    a declared event without a handler makes it fail with
    MissingEventHandler, and, when every declared event has its handler, a
    declared modifier without a callback makes it fail with
    MissingModifierCallback.  Nothing is skipped. *)
Theorem init_wires_or_fails (now : Z) (this : Effect)
  (on setModifier : string) (r1 r2 : value) :
  ToBoolean (_options this) = true ->
  ToBoolean (_effect this) = true ->
  get_property (_target this) "on" = Return (VFun on (Return r1)) ->
  get_property (_target this) "setModifier"
  = Return (VFun setModifier (Return r2)) ->
  let events := or_else (prop (_effect this) "events") (VObj []) in
  let modifiers := prop (_effect this) "modifiers" in
  if all_present events
  then if all_present modifiers
       then result_of (init now this) = Return tt
            /\ trace_of (init now this) =
                 (Call on [Val (VStr "quit"); QuitClosure]
                  :: registrations on events
                  ++ registrations setModifier modifiers)%list
       else result_of (init now this) = Throw MissingModifierCallback
  else result_of (init now this) = Throw MissingEventHandler.
Proof.
  intros Ho He Hon Hsm events modifiers.
  pose proof (init_run now this on setModifier r1 r2 Ho He Hon Hsm) as H.
  cbn zeta in H. fold events modifiers in H.
  unfold all_present, registrations.
  destruct (forallb _ (own_keys events)) eqn:Hev.
  - rewrite (wiring_all_present _ _ _ _ Hev) in H. cbn [fst snd] in H.
    destruct (forallb _ (own_keys modifiers)) eqn:Hmod.
    + rewrite (wiring_all_present _ _ _ _ Hmod) in H. cbn [fst snd] in H.
      injection H as Ht Hr. split; assumption.
    + rewrite (wiring_missing setModifier _ MissingModifierCallback _ Hmod) in H.
      injection H as _ Hr. exact Hr.
  - rewrite (wiring_missing on _ MissingEventHandler _ Hev) in H.
    injection H as _ Hr. exact Hr.
Qed.

Lemma init_wires_or_fails_witness :
  result_of (init 5000 (poison_on_player (timed 1000))) = Return tt
  /\ trace_of (init 5000 (poison_on_player (timed 1000))) =
       [ Call "player.on" [Val (VStr "quit"); QuitClosure];
         Call "player.on" [Val (VStr "hit"); Val (fn "poison.onHit")];
         Call "player.setModifier" [Val (VStr "health"); Val (fn "poison.health")] ].
Proof.
  apply (init_wires_or_fails 5000 (poison_on_player (timed 1000))
           "player.on" "player.setModifier" VUndefined VUndefined);
    reflexivity.
Defined.

(** C7, as stated, fails: a descriptor that declares a modifier without a
    callback, and an event without a handler before it, makes [init] fail
    with MissingEventHandler, not with MissingModifierCallback. *)
Lemma init_reports_event_first :
  all_present (prop malformed "modifiers") = false
  /\ result_of
       (init 5000
          (constructed (VStr "curse1") (timed 1000) (VStr "curse") player malformed))
     = Throw MissingEventHandler
  /\ MissingEventHandler <> MissingModifierCallback.
Proof. repeat split. discriminate. Qed.

(** ** Deactivation and the descriptive accessors *)

Lemma throwing_bind_left {A B} (m : M A) (k : A -> M B) :
  throwing m -> throwing (bind m k).
Proof.
  intros Hm this. destruct (Hm this) as [e He].
  exists e. rewrite run_bind, He. reflexivity.
Qed.

Lemma throwing_bind_right {A B} (m : M A) (k : A -> M B) :
  (forall a, throwing (k a)) -> throwing (bind m k).
Proof.
  intros Hk this. rewrite run_bind.
  destruct (result_of (m this)) as [a | e]; cbn.
  - apply Hk.
  - exists e. reflexivity.
Qed.

Lemma deactivate_throwing : throwing deactivate.
Proof.
  unfold deactivate.
  do 6 (apply throwing_bind_right; intros ?).
  apply throwing_bind_left. intros this. eexists. reflexivity.
Qed.

(** C1 fails on the code. Whatever the instance, [deactivate()] never
    returns: it throws, at the latest when it reads the unbound name
    [effect], before it has removed any listener.  Every call it has made
    by then is a call without arguments. *)
Theorem deactivate_throws_before_teardown (this : Effect) :
  (exists e, result_of (deactivate this) = Throw e)
  /\ Forall (fun ev => exists f, ev = Call f []) (trace_of (deactivate this))
  /\ state_of (deactivate this) = this.
Proof.
  split; [apply deactivate_throwing | split; [| apply deactivate_preserving]].
  unfold deactivate. autorewrite with fields. unfold get.
  apply trace_bind; [silent | intros behavior _].
  apply trace_bind; [silent | intros off _].
  apply trace_bind.
  { apply trace_call. intros name body _. exists name. reflexivity. }
  intros _ _.
  apply trace_bind; [silent | intros options _].
  apply trace_bind; [silent | intros supplied _].
  apply trace_bind.
  { unfold when. destruct (ToBoolean supplied); [| silent].
    apply trace_bind; [silent | intros options' _].
    apply trace_bind; [silent | intros off' _].
    apply trace_bind; [| intros; silent].
    apply trace_call. intros name body _. exists name. reflexivity. }
  intros _ _.
  apply trace_bind; [silent | intros effect Heffect].
  cbn in Heffect. discriminate.
Qed.

(** C2 fails on the code. On an effect fresh from its construction, whose
    behavior's deactivate returns and whose options' deactivate, if there is
    one, returns, [deactivate()] throws a ReferenceError after these calls:
    the name [effect] is bound nowhere. *)
Theorem deactivate_without_init_throws
  (registry : value -> value -> value -> outcome value)
  (id options type target : value) (t : list event) (e : Effect)
  (f : string) (r : value) :
  new_Effect registry id options type target = (t, Return e) ->
  get_property (_effect e) "deactivate" = Return (VFun f (Return r)) ->
  returns_if_called (prop options "deactivate") ->
  result_of (deactivate e) = Throw (ReferenceError "effect is not defined")
  /\ trace_of (deactivate e) =
       Call f [] :: match prop options "deactivate" with
                    | VFun g _ => [Call g []]
                    | _ => []
                    end.
Proof.
  intros Hnew Hoff Hopt.
  destruct (new_Effect_instance _ _ _ _ _ _ _ Hnew) as [Hv [behavior [_ ->]]].
  destruct (validated_truthy _ _ _ _ Hv) as [Ho _].
  cbn [_effect constructed] in Hoff.
  unfold deactivate. run. fields. rewrite Hoff. run. fields.
  rewrite (truthy_get _ "deactivate" Ho). run.
  destruct Hopt as [Hfalsy | [g [r' Hg]]].
  - rewrite Hfalsy. run.
    destruct (prop options "deactivate"); try discriminate; split; reflexivity.
  - rewrite Hg. cbn [ToBoolean]. run. fields.
    rewrite (truthy_get _ "deactivate" Ho), Hg. run. split; reflexivity.
Qed.

Lemma deactivate_without_init_throws_witness :
  result_of (deactivate (poison_on_player (announced 1000)))
  = Throw (ReferenceError "effect is not defined")
  /\ trace_of (deactivate (poison_on_player (announced 1000)))
     = [Call "poison.deactivate" []; Call "options.deactivate" []].
Proof.
  apply (deactivate_without_init_throws effects_registry (VStr "poison1")
           (announced 1000) (VStr "poison") player
           [ Resolve player (VStr "poison") (announced 1000);
             Call "poison.activate" [Val (announced 1000); Val player];
             Call "options.activate" [Val player] ]
           (poison_on_player (announced 1000)) "poison.deactivate" VUndefined).
  - reflexivity.
  - reflexivity.
  - right. exists "options.deactivate", VUndefined. reflexivity.
Defined.

(** C9 fails on the code. Whatever the instance, [getName()],
    [getDescription()] and [getAura()] throw a ReferenceError: they read the
    field under a symbol [_event] that the module never declares.
    [getModifiers()] does what is claimed: what it returns is never
    undefined or null. *)
Theorem descriptive_accessors_throw (this : Effect) :
  getName this = (this, [], Throw (ReferenceError "_event is not defined"))
  /\ getDescription this
     = (this, [], Throw (ReferenceError "_event is not defined"))
  /\ getAura this = (this, [], Throw (ReferenceError "_event is not defined"))
  /\ (forall v, result_of (getModifiers this) = Return v -> ToBoolean v = true).
Proof.
  repeat split.
  intros v. unfold getModifiers. run.
  destruct (get_property (_effect this) "modifiers") as [m | e];
    [| discriminate].
  run. unfold or_else.
  destruct (ToBoolean m) eqn:Hm; intros [= <-]; [exact Hm | reflexivity].
Qed.

(** The descriptor of the poison has a name, and [getName()] on a poison
    throws. *)
Example getName_of_poison :
  prop (_effect (poison_on_player (timed 1000))) "name" = VStr "Poison"
  /\ result_of (getName (poison_on_player (timed 1000)))
     = Throw (ReferenceError "_event is not defined").
Proof. split; reflexivity. Qed.

(** * Further properties *)

(** ** The fields set at construction *)

Lemma step_keeps_wiring (this later : Effect) :
  step this later -> same_wiring this later.
Proof.
  intros Hstep. destruct Hstep as [now this | now this | now this | this].
  - rewrite init_state.
    destruct (ToBoolean (prop (_options this) "duration"));
      unfold same_wiring; cbn; auto 10.
  - rewrite setElapsed_run. unfold same_wiring. cbn. auto 10.
  - rewrite quit_handler_state, setElapsed_run. unfold same_wiring. cbn. auto 10.
  - rewrite deactivate_preserving. unfold same_wiring. auto 10.
Qed.

Lemma reaches_keeps_wiring (this later : Effect) :
  reaches this later -> same_wiring this later.
Proof.
  intros Hreach.
  induction Hreach as [this | this mid final Hreach IH Hstep].
  - unfold same_wiring. auto 10.
  - pose proof (step_keeps_wiring _ _ Hstep) as Hs.
    unfold same_wiring in *.
    destruct IH as (? & ? & ? & ? & ?), Hs as (? & ? & ? & ? & ?).
    repeat split; congruence.
Qed.

(** X1. The id, the options, the type, the target and the behavior of an
    effect are those of its construction for as long as it lives: no
    method writes them, and the four accessors hand back the constructor's
    arguments, without calling anything. *)
Theorem accessors_return_construction_arguments
  (registry : value -> value -> value -> outcome value)
  (id options type target : value) (t : list event) (e later : Effect) :
  new_Effect registry id options type target = (t, Return e) ->
  reaches e later ->
  getId later = (later, [], Return id)
  /\ getOptions later = (later, [], Return options)
  /\ getType later = (later, [], Return type)
  /\ getTarget later = (later, [], Return target)
  /\ Return (_effect later) = registry target type options.
Proof.
  intros Hnew Hreach.
  destruct (new_Effect_instance _ _ _ _ _ _ _ Hnew) as [_ [behavior [Hreg ->]]].
  destruct (reaches_keeps_wiring _ _ Hreach) as (Hi & Ho & Hty & Hta & He).
  cbn [_id _options _type _target _effect constructed] in *.
  rewrite Hreg, Hi, Ho, Hty, Hta, He. repeat split.
Qed.

Lemma accessors_return_construction_arguments_witness :
  getId (state_of (setElapsed 7000 (state_of (init 5000 (poison_on_player (timed 1000))))))
  = (state_of (setElapsed 7000 (state_of (init 5000 (poison_on_player (timed 1000))))),
     [], Return (VStr "poison1")).
Proof.
  apply (accessors_return_construction_arguments effects_registry
           (VStr "poison1") (timed 1000) (VStr "poison") player
           [Resolve player (VStr "poison") (timed 1000);
            Call "poison.activate" [Val (timed 1000); Val player]]
           (poison_on_player (timed 1000))).
  - reflexivity.
  - eapply reaches_step;
      [eapply reaches_step; [apply reaches_refl | apply step_init]
      | apply step_setElapsed].
Defined.

(** ** Construction past validation *)

(** Everything [new Effect] can do once validation has passed. *)
Lemma new_Effect_validated
  (registry : value -> value -> value -> outcome value)
  (id options type target : value) :
  first_failure id options type target = None ->
  new_Effect registry id options type target =
    match registry target type options with
    | Throw e => ([Resolve target type options], Throw e)
    | Return behavior =>
        let instance := constructed id options type target behavior in
        match get_property behavior "activate" with
        | Throw e => ([Resolve target type options], Throw e)
        | Return (VFun f (Throw e)) =>
            ([Resolve target type options; Call f [Val options; Val target]],
             Throw e)
        | Return (VFun f (Return _)) =>
            let resolved :=
              [Resolve target type options; Call f [Val options; Val target]] in
            match prop options "activate" with
            | VFun g (Return _) =>
                (resolved ++ [Call g [Val target]], Return instance)%list
            | VFun g (Throw e) =>
                (resolved ++ [Call g [Val target]], Throw e)%list
            | supplied =>
                if ToBoolean supplied
                then (resolved,
                      Throw (TypeError "this[_options].activate is not a function"))
                else (resolved, Return instance)
            end
        | Return _ =>
            ([Resolve target type options],
             Throw (TypeError "this[_effect].activate is not a function"))
        end
    end.
Proof.
  intros Hv.
  destruct (validated_truthy _ _ _ _ Hv) as [Ho _].
  unfold new_Effect, constructor.
  rewrite run_bind, validate_first_failure, Hv.
  cbn [result_of state_of trace_of fst snd app].
  run.
  destruct (registry target type options) as [behavior | e]; [| reflexivity].
  run. fields.
  destruct (get_property behavior "activate") as [activate | e] eqn:Hact;
    [| reflexivity].
  run.
  destruct activate as [| | b | n | s | props | f [r | e]];
    try (fields; run; reflexivity).
  run. fields. rewrite (truthy_get _ "activate" Ho). run.
  destruct (prop options "activate")
    as [| | [|] | [| | | z] | s | props | g [v | e]] eqn:Hp;
    cbn [ToBoolean];
    try match goal with
        | |- context [if ?b then _ else _] => destruct b
        end;
    repeat (run; fields; rewrite ?(truthy_get _ "activate" Ho), ?Hp);
    reflexivity.
Qed.

Lemma validated_checks (id options type target : value) :
  first_failure id options type target = None ->
  ToBoolean id = true /\ ToBoolean options = true /\ own_keys options <> []
  /\ ToBoolean type = true /\ ToBoolean target = true
  /\ ToBoolean (prop target "addEffect") = true.
Proof.
  unfold first_failure.
  destruct (ToBoolean id); cbn [negb]; [| discriminate].
  destruct (ToBoolean options); cbn [negb orb]; [| discriminate].
  destruct (own_keys options) as [| key keys] eqn:Hk; cbn; [discriminate |].
  destruct (ToBoolean type); cbn [negb]; [| discriminate].
  destruct (ToBoolean target); cbn [negb]; [| discriminate].
  destruct (ToBoolean (prop target "addEffect")); cbn [negb]; [| discriminate].
  intros _. repeat split; discriminate.
Qed.

(** X2. An instance exists only if every check of the construction passed
    and the behavior was activated: its id, type and target are truthy, its
    options are truthy and have a key, its target has a truthy addEffect,
    the registry answered a behavior whose activate was called, first, with
    the options and the target, and returned; and the instance starts with
    no anchor and no elapsed time. *)
Theorem instance_implies_validated_and_activated
  (registry : value -> value -> value -> outcome value)
  (id options type target : value) (t : list event) (e : Effect) :
  new_Effect registry id options type target = (t, Return e) ->
  (ToBoolean id = true /\ ToBoolean options = true /\ own_keys options <> []
   /\ ToBoolean type = true /\ ToBoolean target = true
   /\ ToBoolean (prop target "addEffect") = true)
  /\ (exists behavior f r rest,
        registry target type options = Return behavior
        /\ get_property behavior "activate" = Return (VFun f (Return r))
        /\ e = constructed id options type target behavior
        /\ t = Resolve target type options
               :: Call f [Val options; Val target] :: rest)
  /\ _started e = VUndefined /\ _elapsed e = VUndefined.
Proof.
  intros Hnew.
  destruct (new_Effect_instance _ _ _ _ _ _ _ Hnew) as [Hv [behavior [Hreg ->]]].
  split; [apply validated_checks, Hv | split; [| split; reflexivity]].
  rewrite (new_Effect_validated _ _ _ _ _ Hv), Hreg in Hnew. cbn zeta in Hnew.
  destruct (get_property behavior "activate") as [activate | err] eqn:Hact;
    [| discriminate].
  destruct activate as [| | b | n | s | props | f [r | err]]; try discriminate.
  exists behavior, f, r.
  destruct (prop options "activate")
    as [| | [|] | [| | | z] | s | props | g [v | err]];
    cbn [ToBoolean] in Hnew;
    try match type of Hnew with
        | context [if ?b then _ else _] => destruct b
        end;
    try discriminate;
    injection Hnew as <-; eexists; repeat split; try reflexivity; assumption.
Qed.

Lemma instance_implies_validated_and_activated_witness :
  ToBoolean (VStr "poison1") = true
  /\ ToBoolean (timed 1000) = true
  /\ own_keys (timed 1000) <> []
  /\ ToBoolean (VStr "poison") = true
  /\ ToBoolean player = true
  /\ ToBoolean (prop player "addEffect") = true.
Proof.
  apply (instance_implies_validated_and_activated effects_registry
           (VStr "poison1") (timed 1000) (VStr "poison") player
           [Resolve player (VStr "poison") (timed 1000);
            Call "poison.activate" [Val (timed 1000); Val player]]
           (poison_on_player (timed 1000))).
  reflexivity.
Defined.

(** X3. When validation has passed but the behavior cannot be activated
    (the registry throws, or answers undefined, null or anything whose
    activate is not a function), construction throws, produces no instance,
    and has done nothing but ask the registry: the activate of the options
    is not called. *)
Theorem construction_without_usable_behavior
  (registry : value -> value -> value -> outcome value)
  (id options type target : value) :
  first_failure id options type target = None ->
  match registry target type options with
  | Throw e =>
      new_Effect registry id options type target
      = ([Resolve target type options], Throw e)
  | Return behavior =>
      match get_property behavior "activate" with
      | Return (VFun _ _) => True
      | _ =>
          exists message,
            new_Effect registry id options type target
            = ([Resolve target type options], Throw (TypeError message))
      end
  end.
Proof.
  intros Hv. rewrite (new_Effect_validated _ _ _ _ _ Hv).
  destruct (registry target type options) as [behavior | e]; [| reflexivity].
  cbn zeta.
  destruct behavior as [| | b | n | s | props | f body]; cbn [get_property];
    try (eexists; reflexivity);
    match goal with
    | |- match ?v with _ => _ end => destruct v; try exact I; eexists; reflexivity
    end.
Qed.

Lemma construction_without_usable_behavior_witness :
  exists message,
    new_Effect (fun _ _ _ => Return VUndefined) (VStr "poison1") (timed 1000)
      (VStr "unknown") player
    = ([Resolve player (VStr "unknown") (timed 1000)], Throw (TypeError message)).
Proof.
  apply (construction_without_usable_behavior (fun _ _ _ => Return VUndefined)
           (VStr "poison1") (timed 1000) (VStr "unknown") player).
  reflexivity.
Defined.

(** ** The clock *)







(** X6. Expiry is final: an effect that is not current at some time is not
    current at any later time, as long as no method is run on it. *)
Theorem expired_stays_expired (this : Effect) (d : value) (now later : Z) :
  get_property (_options this) "duration" = Return d ->
  now <= later ->
  result_of (isCurrent now this) = Return false ->
  result_of (isCurrent later this) = Return false.
Proof.
  intros Hd Hle.
  rewrite !(isCurrent_run _ _ _ Hd). cbn [result_of snd].
  unfold isNaN, num_or.
  destruct (parseInt_finite d) as [-> | [z ->]]; cbn [ToBoolean]; [discriminate |].
  destruct (z =? 0); cbn; [discriminate |].
  destruct (ToNumber (_started this)) as [| | | s]; cbn; try (intros H; exact H).
  intros [= H]. f_equal.
  apply Z.ltb_ge in H. apply Z.ltb_ge. lia.
Qed.

Lemma expired_stays_expired_witness :
  result_of (isCurrent 7000 (state_of (init 5000 (poison_on_player (timed 1000)))))
  = Return false.
Proof.
  apply (expired_stays_expired _ (VNum (Num 1000)) 6000 7000).
  - reflexivity.
  - lia.
  - reflexivity.
Defined.

(** X7. A duration that parses to no integer, or to zero, makes the effect
    permanent whatever its anchor: it is not temporary and it is current at
    every time, also when the duration is truthy and [init] has anchored a
    clock. *)
Theorem unparsable_duration_is_permanent (this : Effect) (d : value) (now : Z) :
  get_property (_options this) "duration" = Return d ->
  parseInt d = NaN \/ parseInt d = Num 0 ->
  result_of (isTemporary this) = Return false
  /\ result_of (isCurrent now this) = Return true.
Proof.
  intros Hd Hparse.
  rewrite (isTemporary_run _ _ Hd), (isCurrent_run _ _ _ Hd).
  destruct Hparse as [-> | ->]; auto.
Qed.

Lemma unparsable_duration_is_permanent_witness :
  _started (state_of (init 5000 (poison_on_player vague))) = VNum (Num 5000)
  /\ result_of (isTemporary (state_of (init 5000 (poison_on_player vague))))
     = Return false
  /\ result_of (isCurrent 999999999 (state_of (init 5000 (poison_on_player vague))))
     = Return true.
Proof.
  split; [reflexivity |].
  apply (unparsable_duration_is_permanent
           (state_of (init 5000 (poison_on_player vague))) (VStr "a while")).
  - reflexivity.
  - left. reflexivity.
Defined.

(** ** Validity *)

Lemma isCurrent_throws (now : Z) (this : Effect) (e : JsError) :
  get_property (_options this) "duration" = Throw e ->
  isCurrent now this = (this, [], Throw e).
Proof.
  intros Hd. unfold isCurrent, isTemporary, getDuration. run.
  rewrite Hd. rewrite bind_lift. reflexivity.
Qed.

Lemma checkPredicate_run (this : Effect) (key : string) (v : value) :
  get_property (_options this) key = Return v ->
  checkPredicate this = predicate_verdict this.
Proof.
  intros Hkey. unfold checkPredicate, predicate_verdict. run.
  rewrite (get_again _ _ "predicate" _ Hkey). run.
  destruct (prop (_options this) "predicate")
    as [| | [|] | [| | | z] | s | props | p body];
    cbn [ToBoolean];
    try match goal with
        | |- context [if ?b then _ else _] => destruct b
        end;
    reflexivity.
Qed.

Lemma isCurrent_verdict (now : Z) (this : Effect) (b : bool) :
  result_of (isCurrent now this) = Return b ->
  isCurrent now this = (this, [], Return b)
  /\ exists d, get_property (_options this) "duration" = Return d.
Proof.
  destruct (get_property (_options this) "duration") as [d | e] eqn:Hd.
  - rewrite (isCurrent_run _ _ _ Hd). cbn [result_of snd].
    intros [= <-]. split; [reflexivity | exists d; reflexivity].
  - rewrite (isCurrent_throws _ _ _ Hd). discriminate.
Qed.

Lemma isValid_run (now : Z) (this : Effect) (b : bool) :
  result_of (isCurrent now this) = Return b ->
  isValid now this =
    if b then predicate_verdict this else (this, [], Return (VBool false)).
Proof.
  intros Hb. destruct (isCurrent_verdict _ _ _ Hb) as [Hrun [d Hd]].
  unfold isValid. rewrite (bind_then _ _ _ _ _ _ Hrun), after_no_calls.
  destruct b; [apply (checkPredicate_run _ _ _ Hd) | reflexivity].
Qed.

(** X8. [isValid()] asks the predicate only of a current effect: on an
    effect that is not current it answers false and calls nothing; on a
    current one it answers true when the options have no predicate, and
    otherwise calls the predicate once, without arguments, and hands back
    whatever it returns or throws, not coerced to a boolean.  It never
    writes to the instance. *)
Theorem isValid_consults_predicate_when_current
  (now : Z) (this : Effect) (b : bool) :
  result_of (isCurrent now this) = Return b ->
  isValid now this =
    (if b then predicate_verdict this else (this, [], Return (VBool false)))
  /\ state_of (isValid now this) = this.
Proof.
  intros Hb. rewrite (isValid_run _ _ _ Hb). split; [reflexivity |].
  destruct b; [| reflexivity].
  unfold predicate_verdict.
  destruct (prop (_options this) "predicate")
    as [| | [|] | [| | | z] | s | props | p body];
    cbn [ToBoolean];
    try match goal with
        | |- context [if ?c then _ else _] => destruct c
        end;
    reflexivity.
Qed.

Lemma isValid_consults_predicate_when_current_witness :
  isValid 5500 (state_of (init 5000 (poison_on_player (guarded 1000))))
  = (state_of (init 5000 (poison_on_player (guarded 1000))),
     [Call "stillCursed" []], Return (VNum (Num 0))).
Proof.
  apply (isValid_consults_predicate_when_current 5500
           (state_of (init 5000 (poison_on_player (guarded 1000)))) true).
  reflexivity.
Defined.

(** X9. The elapsed snapshot is write-only: [setElapsed()] stores what
    [getElapsed()] answers at that time and leaves the anchor alone, and
    nothing it stores is read by [getElapsed()], [isCurrent()] or
    [isValid()], whose answers and calls are what they were without it. *)
Theorem snapshot_changes_no_verdict (this : Effect) (at_ now : Z) :
  let snapshot := state_of (setElapsed at_ this) in
  result_of (getElapsed at_ this) = Return (_elapsed snapshot)
  /\ _started snapshot = _started this
  /\ result_of (getElapsed now snapshot) = result_of (getElapsed now this)
  /\ result_of (isCurrent now snapshot) = result_of (isCurrent now this)
  /\ result_of (isValid now snapshot) = result_of (isValid now this)
  /\ trace_of (isValid now snapshot) = trace_of (isValid now this).
Proof.
  cbn zeta. rewrite setElapsed_run. cbn [state_of fst].
  set (v := if isNaN (_started this) then VNull
            else VNum (num_sub (Num at_) (ToNumber (_started this)))).
  assert (Hcur : result_of (isCurrent now (set_elapsed v this))
                 = result_of (isCurrent now this)).
  { destruct (get_property (_options this) "duration") as [d | e] eqn:Hd.
    - rewrite (isCurrent_run now (set_elapsed v this) d Hd),
        (isCurrent_run now this d Hd). reflexivity.
    - rewrite (isCurrent_throws now (set_elapsed v this) e Hd),
        (isCurrent_throws now this e Hd). reflexivity. }
  split; [rewrite getElapsed_run; reflexivity |].
  split; [reflexivity |].
  split; [rewrite !getElapsed_run; reflexivity |].
  split; [exact Hcur |].
  destruct (result_of (isCurrent now this)) as [b | e] eqn:Hb.
  - rewrite (isValid_run _ _ _ Hcur), (isValid_run _ _ _ Hb).
    destruct b; [| auto].
    unfold predicate_verdict. cbn [_options set_elapsed].
    destruct (prop (_options this) "predicate")
      as [| | [|] | [| | | z] | s | props | p body];
      cbn [ToBoolean];
      try match goal with
          | |- context [if ?b then _ else _] => destruct b
          end;
      auto.
  - destruct (get_property (_options this) "duration") as [d | e'] eqn:Hd.
    + rewrite (isCurrent_run _ _ _ Hd) in Hb. discriminate.
    + unfold isValid.
      rewrite (bind_then _ _ _ _ _ _ (isCurrent_throws now (set_elapsed v this) e' Hd)),
        (bind_then _ _ _ _ _ _ (isCurrent_throws now this e' Hd)).
      auto.
Qed.

(** ** Wiring that fails half-way, and wiring twice *)

Lemma wiring_stops (f : string) (o : value) (missing : JsError)
  (before after : list string) (key : string) :
  forallb (fun k => ToBoolean (prop o k)) before = true ->
  ToBoolean (prop o key) = false ->
  wiring f o (before ++ key :: after) missing
  = (map (registration f o) before, Throw missing).
Proof.
  intros Hbefore Hkey.
  induction before as [| k rest IH]; cbn [app wiring map forallb] in *.
  - rewrite Hkey. reflexivity.
  - apply andb_prop in Hbefore as [Hk Hrest].
    rewrite Hk, (IH Hrest). reflexivity.
Qed.

(** [init] up to the end of its loop over the events, on a target whose
    [on] returns. *)
Lemma init_events_run (now : Z) (this : Effect) (on : string) (r1 : value) :
  ToBoolean (_options this) = true ->
  ToBoolean (_effect this) = true ->
  get_property (_target this) "on" = Return (VFun on (Return r1)) ->
  let events := or_else (prop (_effect this) "events") (VObj []) in
  let listeners := wiring on events (own_keys events) MissingEventHandler in
  forall e, snd listeners = Throw e ->
  trace_of (init now this)
  = Call on [Val (VStr "quit"); QuitClosure] :: fst listeners
  /\ result_of (init now this) = Throw e.
Proof.
  intros Ho He Hon events listeners e Hfail.
  enough (H : exists this',
             init now this
             = (this', Call on [Val (VStr "quit"); QuitClosure] :: fst listeners,
                Throw e)).
  { destruct H as [this' ->]. split; reflexivity. }
  assert (Htiming :
    exists this',
      when (ToBoolean (prop (_options this) "duration"))
        (started <- get (_options this) "started" ;;
         this_set "_started" (or_else started (VNum (Num now))) ;;
         elapsed <- get (_options this) "elapsed" ;;
         this_set "_elapsed" (or_else elapsed (VNum (Num 0)))) this
      = (this', [], Return tt) /\ _effect this' = _effect this).
  { destruct (ToBoolean (prop (_options this) "duration")); cbn [when].
    - unfold get. rewrite !(truthy_get _ _ Ho). run.
      eexists. split; reflexivity.
    - exists this. split; reflexivity. }
  destruct Htiming as [this' [Htiming Heff]]. exists this'.
  assert (Hevents : forall key, get_property events key = Return (prop events key)).
  { intros key. apply truthy_get. unfold events, or_else.
    destruct (ToBoolean (prop (_effect this) "events")) eqn:Hev;
      [exact Hev | reflexivity]. }
  unfold init. autorewrite with fields.
  rewrite bind_read; cbv beta. rewrite bind_read; cbv beta.
  unfold get at 1. rewrite (truthy_get _ "duration" Ho), bind_lift_Return.
  rewrite (bind_then _ _ _ _ _ _ Htiming), after_no_calls.
  rewrite bind_read; cbv beta. rewrite Heff.
  unfold get, for_in.
  rewrite Hon at 1. rewrite bind_lift_Return, bind_call.
  rewrite (truthy_get _ "events" He), bind_lift_Return.
  fold events.
  rewrite (bind_then _ _ _ _ _ _
             (for_each_wiring events (_target this) "on" "target.on" on r1
                MissingEventHandler (own_keys events) this' Hon
                (fun key _ => Hevents key))).
  fold listeners. rewrite Hfail. reflexivity.
Qed.

(** X10. [init] is not all-or-nothing on the events: when a declared event
    has no handler, [init] throws at that event, having already registered
    the quit handler and every event declared before it; the events
    declared after it are not registered and no modifier is installed. *)
Theorem init_stops_at_first_missing_handler
  (now : Z) (this : Effect) (on : string) (r1 : value)
  (before after : list string) (event : string) :
  ToBoolean (_options this) = true ->
  ToBoolean (_effect this) = true ->
  get_property (_target this) "on" = Return (VFun on (Return r1)) ->
  let events := or_else (prop (_effect this) "events") (VObj []) in
  own_keys events = (before ++ event :: after)%list ->
  forallb (fun key => ToBoolean (prop events key)) before = true ->
  ToBoolean (prop events event) = false ->
  result_of (init now this) = Throw MissingEventHandler
  /\ trace_of (init now this)
     = Call on [Val (VStr "quit"); QuitClosure]
       :: map (registration on events) before.
Proof.
  intros Ho He Hon events Hkeys Hbefore Hevent.
  pose proof (wiring_stops on events MissingEventHandler before after event
                Hbefore Hevent) as Hw.
  rewrite <- Hkeys in Hw.
  destruct (init_events_run now this on r1 Ho He Hon MissingEventHandler)
    as [Ht Hr].
  { fold events. rewrite Hw. reflexivity. }
  fold events in Ht. rewrite Hw in Ht. split; assumption.
Qed.

Lemma init_stops_at_first_missing_handler_witness :
  result_of
    (init 5000 (constructed (VStr "curse1") (timed 1000) (VStr "curse") player half_wired))
  = Throw MissingEventHandler
  /\ trace_of
       (init 5000 (constructed (VStr "curse1") (timed 1000) (VStr "curse") player half_wired))
     = [ Call "player.on" [Val (VStr "quit"); QuitClosure];
         Call "player.on" [Val (VStr "hit"); Val (fn "curse.onHit")] ].
Proof.
  apply (init_stops_at_first_missing_handler 5000
           (constructed (VStr "curse1") (timed 1000) (VStr "curse") player half_wired)
           "player.on" VUndefined ["hit"] ["kill"] "miss");
    reflexivity.
Defined.

(** X11. Nor on the modifiers: when every declared event has its handler
    and a declared modifier has no callback, [init] throws at that
    modifier, having registered the quit handler and every event and
    installed every modifier declared before it; none of this is undone. *)
Theorem init_stops_at_first_missing_callback
  (now : Z) (this : Effect) (on setModifier : string) (r1 r2 : value)
  (before after : list string) (attr : string) :
  ToBoolean (_options this) = true ->
  ToBoolean (_effect this) = true ->
  get_property (_target this) "on" = Return (VFun on (Return r1)) ->
  get_property (_target this) "setModifier"
  = Return (VFun setModifier (Return r2)) ->
  let events := or_else (prop (_effect this) "events") (VObj []) in
  let modifiers := prop (_effect this) "modifiers" in
  all_present events = true ->
  own_keys modifiers = (before ++ attr :: after)%list ->
  forallb (fun key => ToBoolean (prop modifiers key)) before = true ->
  ToBoolean (prop modifiers attr) = false ->
  result_of (init now this) = Throw MissingModifierCallback
  /\ trace_of (init now this)
     = (Call on [Val (VStr "quit"); QuitClosure]
        :: registrations on events
        ++ map (registration setModifier modifiers) before)%list.
Proof.
  intros Ho He Hon Hsm events modifiers Hev Hkeys Hbefore Hattr.
  pose proof (init_run now this on setModifier r1 r2 Ho He Hon Hsm) as H.
  cbn zeta in H. fold events modifiers in H.
  rewrite (wiring_all_present _ _ _ _ Hev) in H. cbn [fst snd] in H.
  rewrite Hkeys,
    (wiring_stops setModifier modifiers MissingModifierCallback before after
       attr Hbefore Hattr) in H.
  cbn [fst snd] in H. injection H as Ht Hr. split; assumption.
Qed.

Lemma init_stops_at_first_missing_callback_witness :
  result_of
    (init 5000 (constructed (VStr "hex1") (timed 1000) (VStr "hex") player half_modified))
  = Throw MissingModifierCallback
  /\ trace_of
       (init 5000 (constructed (VStr "hex1") (timed 1000) (VStr "hex") player half_modified))
     = [ Call "player.on" [Val (VStr "quit"); QuitClosure];
         Call "player.on" [Val (VStr "hit"); Val (fn "hex.onHit")];
         Call "player.setModifier" [Val (VStr "health"); Val (fn "hex.health")] ].
Proof.
  apply (init_stops_at_first_missing_callback 5000
           (constructed (VStr "hex1") (timed 1000) (VStr "hex") player half_modified)
           "player.on" "player.setModifier" VUndefined VUndefined
           ["health"] [] "mana");
    reflexivity.
Defined.

Lemma same_wiring_refl (a : Effect) : same_wiring a a.
Proof. unfold same_wiring. auto 10. Qed.

Lemma same_wiring_sym (a b : Effect) : same_wiring a b -> same_wiring b a.
Proof. unfold same_wiring. intros (? & ? & ? & ? & ?). auto 10. Qed.

Lemma agrees_silent {A} (r : outcome A) : agrees (lift r) (lift r).
Proof. intros a b R. cbn. auto. Qed.

Lemma agrees_ret {A} (x : A) : agrees (ret x) (ret x).
Proof. apply (agrees_silent (Return x)). Qed.

Lemma agrees_throw {A} (e : JsError) : agrees (@throw A e) (throw e).
Proof. apply (agrees_silent (Throw e)). Qed.

Lemma agrees_call (callee : string) (f : value) (args : list arg) :
  agrees (call callee f args) (call callee f args).
Proof. intros a b R. destruct f; cbn; auto. Qed.

Lemma agrees_read_target : agrees (read _target) (read _target).
Proof. intros a b R. cbn. destruct R as (? & ? & ? & Ht & ?). rewrite Ht. unfold same_wiring. auto 10. Qed.

Lemma agrees_read_options : agrees (read _options) (read _options).
Proof. intros a b R. cbn. destruct R as (? & Ho & ? & ? & ?). rewrite Ho. unfold same_wiring. auto 10. Qed.

Lemma agrees_read_effect : agrees (read _effect) (read _effect).
Proof. intros a b R. cbn. destruct R as (? & ? & ? & ? & He). rewrite He. unfold same_wiring. auto 10. Qed.

Lemma agrees_write_started (v w : value) :
  agrees (write (set_started v)) (write (set_started w)).
Proof. intros a b R. cbn. repeat split; apply R. Qed.

Lemma agrees_write_elapsed (v w : value) :
  agrees (write (set_elapsed v)) (write (set_elapsed w)).
Proof. intros a b R. cbn. repeat split; apply R. Qed.

Lemma agrees_bind {A B} (m1 m2 : M A) (k1 k2 : A -> M B) :
  agrees m1 m2 -> (forall x, agrees (k1 x) (k2 x)) ->
  agrees (bind m1 k1) (bind m2 k2).
Proof.
  intros Hm Hk a b R. destruct (Hm a b R) as (Ht & Hr & Hs).
  rewrite !run_bind, Hr.
  destruct (result_of (m2 b)) as [x | e]; cbn.
  - destruct (Hk x _ _ Hs) as (Ht' & Hr' & Hs'). rewrite Ht, Ht'. auto.
  - auto.
Qed.

Lemma agrees_for_each (keys : list string) (body1 body2 : string -> M unit) :
  (forall key, agrees (body1 key) (body2 key)) ->
  agrees (for_each keys body1) (for_each keys body2).
Proof.
  intros Hbody. induction keys as [| key rest IH]; cbn [for_each].
  - apply agrees_ret.
  - apply agrees_bind; [apply Hbody | intros _; exact IH].
Qed.

(** What [init] calls and how it ends depend neither on the time nor on
    the timing fields. *)
Lemma init_agrees (now1 now2 : Z) : agrees (init now1) (init now2).
Proof.
  unfold init. autorewrite with fields. unfold get, for_in.
  apply agrees_bind; [apply agrees_read_target | intros target].
  apply agrees_bind; [apply agrees_read_options | intros options].
  apply agrees_bind; [apply agrees_silent | intros duration].
  apply agrees_bind.
  { unfold when. destruct (ToBoolean duration); [| apply agrees_ret].
    apply agrees_bind; [apply agrees_silent | intros started].
    apply agrees_bind; [apply agrees_write_started | intros _].
    apply agrees_bind; [apply agrees_silent | intros elapsed].
    apply agrees_write_elapsed. }
  intros _.
  apply agrees_bind; [apply agrees_read_effect | intros effect].
  apply agrees_bind; [apply agrees_silent | intros on].
  apply agrees_bind; [apply agrees_call | intros _].
  apply agrees_bind; [apply agrees_silent | intros declared].
  apply agrees_bind.
  { apply agrees_for_each. intros event.
    apply agrees_bind; [apply agrees_silent | intros handler].
    apply agrees_bind;
      [unfold when; destruct (negb (ToBoolean handler));
       [apply agrees_throw | apply agrees_ret] | intros _].
    apply agrees_bind; [apply agrees_silent | intros on'].
    apply agrees_bind; [apply agrees_call | intros _; apply agrees_ret]. }
  intros _.
  apply agrees_bind; [apply agrees_silent | intros modifiers].
  apply agrees_for_each. intros attr.
  apply agrees_bind; [apply agrees_silent | intros modifier].
  apply agrees_bind;
    [unfold when; destruct (negb (ToBoolean modifier));
     [apply agrees_throw | apply agrees_ret] | intros _].
  apply agrees_bind; [apply agrees_silent | intros sm].
  apply agrees_bind; [apply agrees_call | intros _; apply agrees_ret].
Qed.

(** X12. [init] does not guard against being run again: a second [init]
    makes exactly the calls of the first, so the quit handler, every
    listener and every modifier are registered a second time, it ends as the
    first did, and it leaves the instance as if it alone had run: the clock
    is anchored anew. *)
Theorem init_again_registers_again (now1 now2 : Z) (this : Effect) :
  let once := init now1 this in
  let twice := init now2 (state_of once) in
  trace_of twice = trace_of once
  /\ result_of twice = result_of once
  /\ state_of twice = state_of (init now2 this).
Proof.
  cbn zeta.
  assert (R : same_wiring (state_of (init now1 this)) this).
  { apply same_wiring_sym, step_keeps_wiring, step_init. }
  destruct (init_agrees now2 now1 _ _ R) as (Ht & Hr & _).
  split; [exact Ht | split; [exact Hr |]].
  destruct R as (_ & Ho & _).
  rewrite (init_state now2 (state_of (init now1 this))), Ho.
  rewrite (init_state now2 this), (init_state now1 this).
  destruct (ToBoolean (prop (_options this) "duration")); reflexivity.
Qed.

(** ** The quit handler *)

(** X13. When the target quits, the elapsed time is stored first, then the
    behavior's deactivate is called with the options and the target, and
    nothing else: the deactivate of the options is not called, no listener
    is removed, and the anchor stays. *)
Theorem quit_snapshots_then_deactivates_behavior
  (now : Z) (this : Effect) (f : string) (body : outcome value) :
  get_property (_effect this) "deactivate" = Return (VFun f body) ->
  quit_handler now this =
    (state_of (setElapsed now this),
     [Call f [Val (_options this); Val (_target this)]],
     match body with
     | Return _ => Return tt
     | Throw e => Throw e
     end)
  /\ _started (state_of (quit_handler now this)) = _started this
  /\ result_of (getElapsed now this)
     = Return (_elapsed (state_of (quit_handler now this))).
Proof.
  intros Hoff.
  assert (Hrun : quit_handler now this =
                   (state_of (setElapsed now this),
                    [Call f [Val (_options this); Val (_target this)]],
                    match body with
                    | Return _ => Return tt
                    | Throw e => Throw e
                    end)).
  { unfold quit_handler.
    rewrite (bind_then _ _ _ _ _ _ (setElapsed_run now this)), after_no_calls.
    rewrite setElapsed_run. cbn [state_of fst].
    run. fields. rewrite Hoff. run.
    destruct body; [run |]; reflexivity. }
  rewrite Hrun, setElapsed_run, getElapsed_run. repeat split.
Qed.

Lemma quit_snapshots_then_deactivates_behavior_witness :
  quit_handler 5400 (state_of (init 5000 (poison_on_player (timed 1000))))
  = (state_of (setElapsed 5400 (state_of (init 5000 (poison_on_player (timed 1000))))),
     [Call "poison.deactivate" [Val (timed 1000); Val player]],
     Return tt).
Proof.
  apply (quit_snapshots_then_deactivates_behavior 5400
           (state_of (init 5000 (poison_on_player (timed 1000))))
           "poison.deactivate" (Return VUndefined)).
  reflexivity.
Defined.

(** ** Modifiers *)

Lemma getModifiers_run (this : Effect) :
  ToBoolean (_effect this) = true ->
  getModifiers this
  = (this, [], Return (or_else (prop (_effect this) "modifiers") (VObj []))).
Proof.
  intros He. unfold getModifiers. run.
  rewrite (truthy_get _ "modifiers" He). run. reflexivity.
Qed.

Lemma falsy_has_no_keys (m : value) : ToBoolean m = false -> own_keys m = [].
Proof.
  destruct m as [| | b | n | s | props | f body]; cbn [ToBoolean own_keys];
    try reflexivity; try discriminate.
  intros H. apply negb_false_iff, String.eqb_eq in H. subst s. reflexivity.
Qed.

Lemma registrations_or_empty (f : string) (m : value) :
  registrations f (or_else m (VObj [])) = registrations f m.
Proof.
  unfold or_else. destruct (ToBoolean m) eqn:Hm; [reflexivity |].
  unfold registrations. rewrite (falsy_has_no_keys _ Hm). reflexivity.
Qed.

(** X14. What a successful [init] installs is what [getModifiers()]
    reports: [getModifiers()] answers a truthy value without calling
    anything, and the modifiers [init] has installed on the target are
    exactly its entries, in order, after the quit handler and the events. *)
Theorem init_installs_what_getModifiers_reports
  (now : Z) (this : Effect) (on setModifier : string) (r1 r2 : value) :
  ToBoolean (_options this) = true ->
  ToBoolean (_effect this) = true ->
  get_property (_target this) "on" = Return (VFun on (Return r1)) ->
  get_property (_target this) "setModifier"
  = Return (VFun setModifier (Return r2)) ->
  result_of (init now this) = Return tt ->
  exists reported,
    getModifiers this = (this, [], Return reported)
    /\ ToBoolean reported = true
    /\ all_present reported = true
    /\ trace_of (init now this)
       = (Call on [Val (VStr "quit"); QuitClosure]
          :: registrations on (or_else (prop (_effect this) "events") (VObj []))
          ++ registrations setModifier reported)%list.
Proof.
  intros Ho He Hon Hsm Hok.
  pose proof (init_run now this on setModifier r1 r2 Ho He Hon Hsm) as H.
  cbn zeta in H. rewrite Hok in H.
  set (events := or_else (prop (_effect this) "events") (VObj [])) in *.
  set (modifiers := prop (_effect this) "modifiers") in *.
  exists (or_else modifiers (VObj [])).
  split; [apply getModifiers_run, He |].
  split; [unfold or_else; destruct (ToBoolean modifiers) eqn:Hm; [exact Hm | reflexivity] |].
  destruct (forallb (fun key => ToBoolean (prop events key)) (own_keys events))
    eqn:Hev.
  2: { rewrite (wiring_missing on _ MissingEventHandler _ Hev) in H. discriminate. }
  rewrite (wiring_all_present _ _ _ _ Hev) in H. cbn [fst snd] in H.
  destruct (forallb (fun key => ToBoolean (prop modifiers key)) (own_keys modifiers))
    eqn:Hmod.
  2: { rewrite (wiring_missing setModifier _ MissingModifierCallback _ Hmod) in H.
       discriminate. }
  rewrite (wiring_all_present _ _ _ _ Hmod) in H. cbn [fst snd] in H.
  injection H as Ht. rewrite registrations_or_empty. split; [| exact Ht].
  unfold all_present, or_else.
  destruct (ToBoolean modifiers); [exact Hmod | reflexivity].
Qed.

Lemma init_installs_what_getModifiers_reports_witness :
  exists reported,
    getModifiers (poison_on_player (timed 1000))
    = (poison_on_player (timed 1000), [], Return reported)
    /\ ToBoolean reported = true
    /\ all_present reported = true
    /\ trace_of (init 5000 (poison_on_player (timed 1000)))
       = (Call "player.on" [Val (VStr "quit"); QuitClosure]
          :: registrations "player.on"
               (or_else (prop (_effect (poison_on_player (timed 1000))) "events")
                  (VObj []))
          ++ registrations "player.setModifier" reported)%list.
Proof.
  apply (init_installs_what_getModifiers_reports 5000
           (poison_on_player (timed 1000)) "player.on" "player.setModifier"
           VUndefined VUndefined); reflexivity.
Defined.

(** [init] on a behavior whose declared events all have their handler, up
    to its loop over the modifiers, on a target whose [on] returns. *)
Lemma init_upto_modifiers (now : Z) (this : Effect) (on : string) (r1 : value) :
  ToBoolean (_options this) = true ->
  ToBoolean (_effect this) = true ->
  get_property (_target this) "on" = Return (VFun on (Return r1)) ->
  let events := or_else (prop (_effect this) "events") (VObj []) in
  let modifiers := prop (_effect this) "modifiers" in
  all_present events = true ->
  exists this',
    init now this =
      after_calls
        (Call on [Val (VStr "quit"); QuitClosure] :: registrations on events)
        (for_each (own_keys modifiers)
           (fun attr =>
              modifier <- lift (get_property modifiers attr) ;;
              when (negb (ToBoolean modifier)) (throw MissingModifierCallback) ;;
              setModifier <- lift (get_property (_target this) "setModifier") ;;
              call "target.setModifier" setModifier
                [Val (VStr attr); Val modifier] ;;
              ret tt) this').
Proof.
  intros Ho He Hon events modifiers Hev.
  assert (Htiming :
    exists this',
      when (ToBoolean (prop (_options this) "duration"))
        (started <- get (_options this) "started" ;;
         this_set "_started" (or_else started (VNum (Num now))) ;;
         elapsed <- get (_options this) "elapsed" ;;
         this_set "_elapsed" (or_else elapsed (VNum (Num 0)))) this
      = (this', [], Return tt) /\ _effect this' = _effect this).
  { destruct (ToBoolean (prop (_options this) "duration")); cbn [when].
    - unfold get. rewrite !(truthy_get _ _ Ho). run.
      eexists. split; reflexivity.
    - exists this. split; reflexivity. }
  destruct Htiming as [this' [Htiming Heff]]. exists this'.
  assert (Hevents : forall key, get_property events key = Return (prop events key)).
  { intros key. apply truthy_get. unfold events, or_else.
    destruct (ToBoolean (prop (_effect this) "events")) eqn:Htruthy;
      [exact Htruthy | reflexivity]. }
  unfold init. autorewrite with fields.
  rewrite bind_read; cbv beta. rewrite bind_read; cbv beta.
  unfold get at 1. rewrite (truthy_get _ "duration" Ho), bind_lift_Return.
  rewrite (bind_then _ _ _ _ _ _ Htiming), after_no_calls.
  rewrite bind_read; cbv beta. rewrite Heff.
  unfold get, for_in.
  rewrite Hon at 1. rewrite bind_lift_Return, bind_call.
  rewrite (truthy_get _ "events" He), bind_lift_Return.
  fold events.
  rewrite (bind_then _ _ _ _ _ _
             (for_each_wiring events (_target this) "on" "target.on" on r1
                MissingEventHandler (own_keys events) this' Hon
                (fun key _ => Hevents key))).
  rewrite (wiring_all_present _ _ _ _ Hev). cbn [fst snd].
  rewrite (truthy_get _ "modifiers" He), bind_lift_Return.
  fold modifiers. reflexivity.
Qed.

(** X15. A behavior that declares no event and no modifier is wired by
    registering the quit handler alone: [init] returns, a missing events
    or modifiers entry is no error, and the target needs no setModifier. *)
Theorem init_of_bare_behavior (now : Z) (this : Effect) (on : string)
  (r1 : value) :
  ToBoolean (_options this) = true ->
  ToBoolean (_effect this) = true ->
  get_property (_target this) "on" = Return (VFun on (Return r1)) ->
  ToBoolean (prop (_effect this) "events") = false ->
  own_keys (prop (_effect this) "modifiers") = [] ->
  trace_of (init now this) = [Call on [Val (VStr "quit"); QuitClosure]]
  /\ result_of (init now this) = Return tt.
Proof.
  intros Ho He Hon Hev Hmod.
  destruct (init_upto_modifiers now this on r1 Ho He Hon) as [this' Hrun].
  { unfold or_else. rewrite Hev. reflexivity. }
  rewrite Hrun, Hmod. unfold or_else. rewrite Hev. split; reflexivity.
Qed.

Lemma init_of_bare_behavior_witness :
  trace_of
    (init 5000
       (constructed (VStr "mark1") (timed 1000) (VStr "mark")
          (VObj [("addEffect", fn "npc.addEffect"); ("on", fn "npc.on")]) bare))
  = [Call "npc.on" [Val (VStr "quit"); QuitClosure]]
  /\ result_of
       (init 5000
          (constructed (VStr "mark1") (timed 1000) (VStr "mark")
             (VObj [("addEffect", fn "npc.addEffect"); ("on", fn "npc.on")]) bare))
     = Return tt.
Proof.
  apply (init_of_bare_behavior 5000
           (constructed (VStr "mark1") (timed 1000) (VStr "mark")
              (VObj [("addEffect", fn "npc.addEffect"); ("on", fn "npc.on")]) bare)
           "npc.on" VUndefined); reflexivity.
Defined.
